(** * browser-gopher: the store, the extractor registry, the sync driver
      and the search gateway

    A shallow embedding of
      - pkg/persistence/persistence.go (the SQLite store and the search
        provider that hydrates search hits from it),
      - pkg/extractors/extractors.go and chromium.go (extractor discovery),
      - cmd/populate.go (the sync driver),
    followed by the properties the specification states about them.

    SQL tables are lists of rows in rowid order.  A statement is modelled
    by its effect on the table when the engine executes it; an I/O failure
    of the engine leaves the table as it was.  Where the failures of a call
    matter, the call is made on a handle ([Conn]) that carries the error of
    a store that cannot be read.
    The connection never turns foreign keys on, so the REFERENCES clauses
    of the schema constrain nothing.  The table "urls_meta" has its own
    writer and is modelled on its own, beside the two tables of [DB]. *)

From Stdlib Require Import ZArith List Sorted Permutation Ascii String Bool Lia.
From Stdlib Require Import DecimalString Floats Uint63.
Import ListNotations.

Local Open Scope string_scope.
Local Open Scope Z_scope.

(** ** Go values shared by the packages *)

(** An [error] is modelled by its message, [err.Error()]. *)
Definition error := string.

(** A Go pair [(value, error)] with the usual discipline: either the
    value or a non-nil error. *)
Inductive result (A : Type) : Type :=
| Ok (a : A)
| Err (e : error).
Arguments Ok {A} a.
Arguments Err {A} e.

Definition is_err {A} (r : result A) : bool :=
  match r with Ok _ => false | Err _ => true end.

(** [errors.Wrap(err, msg)]: the message of the wrapped error is
    [msg + ": " + err.Error()]. *)
Definition Wrap (err : error) (msg : string) : error := msg ++ ": " ++ err.

(** What the process writes: [log.Println] and [fmt.Println] lines. *)
Inductive Output : Type :=
| Log (line : string)
| Print (line : string).

(** ** time.Time *)
Module time.

(** An instant: seconds since the Unix epoch and the nanoseconds within
    that second. *)
Record Time : Type := mkTime { sec : Z; nsec : Z }.

(** [time.Unix(sec, nsec)]; a [nsec] outside [0, 1e9) is carried into
    the seconds. *)
Definition time_Unix (s n : Z) : Time :=
  {| sec := s + n / 1000000000; nsec := n mod 1000000000 |}.

(** The method [t.Unix()]: whole seconds, the nanoseconds are dropped. *)
Definition Unix (t : Time) : Z := sec t.

(** A timestamp in the canonical representation of visit times, which has
    second resolution: no nanoseconds. *)
Definition whole_second (t : Time) : Prop := nsec t = 0.

End time.

(** ** pkg/types (rows exchanged between extractors and the store) *)
Module types.

Module UrlRow.
Record t : Type := mk
  { Url : string;
    Title : option string;
    Description : option string;
    LastVisit : option time.Time }.
End UrlRow.

Module VisitRow.
Record t : Type := mk
  { Url : string;
    Datetime : time.Time;
    ExtractorName : string }.
End VisitRow.

Module UrlDbEntity.
Record t : Type := mk
  { UrlMd5 : string;
    Url : string;
    Title : option string;
    Description : option string;
    LastVisit : option time.Time }.
End UrlDbEntity.

End types.

(** ** pkg/persistence *)
Module persistence.

(** *** The schema of [initSql] *)

(** A row of "urls": [url_md5] is the primary key, [url] is UNIQUE.
    [InsertUrl] is the only writer and always binds an integer to
    [last_visit]. *)
Record urls_row : Type := mk_urls_row
  { url_md5 : string;
    url : string;
    title : option string;
    description : option string;
    last_visit : Z }.

(** A row of "visits": [id] is INTEGER PRIMARY KEY AUTOINCREMENT and
    the index visits_unique makes (url_md5, visit_time) unique. *)
Record visits_row : Type := mk_visits_row
  { id : Z;
    v_url_md5 : string;
    visit_time : Z;
    extractor_name : string }.

(** The database file: both tables in rowid order, and the AUTOINCREMENT
    counter of "visits" (the largest id ever handed out). *)
Record DB : Type := mkDB
  { urls : list urls_row;
    visits : list visits_row;
    visits_seq : Z }.

(** The database right after [InitDb] on a fresh file. *)
Definition empty_db : DB := {| urls := []; visits := []; visits_seq := 0 |}.

(** *** The statements *)

(** Two "urls" rows violate a uniqueness constraint together when they
    agree on the primary key or on the UNIQUE column. *)
Definition urls_conflict (a b : urls_row) : bool :=
  (url_md5 a =? url_md5 b)%string || (url a =? url b)%string.

(** INSERT OR REPLACE INTO urls: every row that conflicts with the new
    one is deleted, then the new row is inserted (with the next rowid,
    hence last). *)
Definition insert_or_replace_urls (r : urls_row) (t : list urls_row)
  : list urls_row :=
  filter (fun x => negb (urls_conflict x r)) t ++ [r].

(** The key of the index visits_unique. *)
Definition visits_same_key (a b : visits_row) : bool :=
  (v_url_md5 a =? v_url_md5 b)%string && (visit_time a =? visit_time b).

(** INSERT OR IGNORE INTO visits(url_md5, visit_time, extractor_name):
    the engine draws the next id, then leaves the table alone when a row
    with the same key is there and appends the row otherwise.  The id
    counter advances in both cases. *)
Definition insert_or_ignore_visits (md5 : string) (ts : Z) (name : string)
           (db : DB) : DB :=
  let r := {| id := visits_seq db + 1; v_url_md5 := md5;
              visit_time := ts; extractor_name := name |} in
  {| urls := urls db;
     visits := if existsb (fun x => visits_same_key x r) (visits db)
               then visits db
               else visits db ++ [r];
     visits_seq := visits_seq db + 1 |}.

(** Largest element of a list of integers, if any. *)
Fixpoint max_list (l : list Z) : option Z :=
  match l with
  | [] => None
  | x :: rest =>
      match max_list rest with
      | None => Some x
      | Some m => Some (Z.max x m)
      end
  end.

(** The message of [sql.ErrNoRows]. *)
Definition ErrNoRows : error := "sql: no rows in result set".

(** [GetLatestTime]: SELECT visit_time FROM visits WHERE extractor_name = ?
    ORDER BY visit_time DESC LIMIT 1; [row.Scan] returns [sql.ErrNoRows]
    when the query has no row. *)
Definition GetLatestTime (db : DB) (name : string) : result time.Time :=
  match max_list (map visit_time
           (filter (fun r => (extractor_name r =? name)%string) (visits db))) with
  | None => Err ErrNoRows
  | Some ts => Ok (time.time_Unix ts 0)
  end.

(** [UrlsById], the row loop: a stored [last_visit] of 0 leaves
    [LastVisit] nil. *)
Definition scan_url (r : urls_row) : types.UrlDbEntity.t :=
  {| types.UrlDbEntity.UrlMd5 := url_md5 r;
     types.UrlDbEntity.Url := url r;
     types.UrlDbEntity.Title := title r;
     types.UrlDbEntity.Description := description r;
     types.UrlDbEntity.LastVisit :=
       if last_visit r =? 0 then None
       else Some (time.time_Unix (last_visit r) 0) |}.

Definition mem_string (s : string) (l : list string) : bool :=
  existsb (fun x => (x =? s)%string) l.

(** The engine's bound on the number of parameters of one statement
    (SQLITE_MAX_VARIABLE_NUMBER), and the message of its error for a
    statement with more. *)
Definition max_variables : Z := 32766.
Definition too_many_variables : error := "too many SQL variables".

(** Putting a row in its place among rows in ascending order of
    [url_md5], compared byte by byte. *)
Fixpoint insert_by_md5 (r : urls_row) (l : list urls_row) : list urls_row :=
  match l with
  | [] => [r]
  | x :: rest =>
      if String.leb (url_md5 r) (url_md5 x) then r :: l
      else x :: insert_by_md5 r rest
  end.

(** Rows in the order of the index of the primary key. *)
Definition by_md5 (l : list urls_row) : list urls_row :=
  fold_right insert_by_md5 [] l.

(** Ascending digests, each row, respectively each record, against the
    next. *)
Definition md5_le (a b : urls_row) : Prop :=
  String.leb (url_md5 a) (url_md5 b) = true.

Definition UrlMd5_le (a b : types.UrlDbEntity.t) : Prop :=
  String.leb (types.UrlDbEntity.UrlMd5 a) (types.UrlDbEntity.UrlMd5 b) = true.

(** [UrlsById]: SELECT ... FROM urls WHERE url_md5 IN (?, ..., ?), one
    parameter per requested id.  With more parameters than the engine
    allows the query fails and nothing is returned.  Otherwise each
    matching row comes once, however often its id is requested; the
    statement has no ORDER BY and the engine answers it by walking the
    index of the primary key, so the rows come in ascending order of
    [url_md5], whatever the order of [ids]. *)
Definition UrlsById (db : DB) (ids : list string)
  : result (list types.UrlDbEntity.t) :=
  if max_variables <? Z.of_nat (List.length ids)
  then Err too_many_variables
  else Ok (map scan_url
             (by_md5 (filter (fun r => mem_string (url_md5 r) ids) (urls db)))).

(** A [*sql.DB] handle.  [sql.Open] does not touch the file; when the
    file cannot be read every statement on the handle fails, with the
    error of the engine. *)
Record Conn : Type := mkConn
  { data : DB;
    fault : option error }.

(** A handle on a database that can be read. *)
Definition handle_on (db : DB) : Conn := {| data := db; fault := None |}.

(** A query on a handle: the error of the handle, or the answer of the
    query on the database behind it. *)
Definition on_handle {A : Type} (q : DB -> result A) (c : Conn) : result A :=
  match fault c with
  | Some err => Err err
  | None => q (data c)
  end.

(** [GetLatestTime] and [UrlsById] as called on a handle: the error of
    [row.Err()], respectively of [QueryContext], comes first. *)
Definition GetLatestTime_on (c : Conn) (name : string) : result time.Time :=
  on_handle (fun db => GetLatestTime db name) c.

Definition UrlsById_on (c : Conn) (ids : list string)
  : result (list types.UrlDbEntity.t) :=
  on_handle (fun db => UrlsById db ids) c.

(** The slice a caller holds after a call: nil when it failed. *)
Definition returned {A : Type} (r : result (list A)) : list A :=
  match r with
  | Ok l => l
  | Err _ => []
  end.

(** The local [lastVisit] of [InsertUrl]: the zero value of int64 unless
    the row has a [LastVisit], then its Unix seconds. *)
Definition lastVisit_of (row : types.UrlRow.t) : Z :=
  match types.UrlRow.LastVisit row with
  | Some t => time.Unix t
  | None => 0
  end.

Section WithHash.

(** [util.HashMd5String], the hex MD5 digest of a string. *)
Variable HashMd5String : string -> string.

(** [InsertUrl]. *)
Definition InsertUrl (db : DB) (row : types.UrlRow.t) : DB :=
  let lastVisit := lastVisit_of row in
  let md5 := HashMd5String (types.UrlRow.Url row) in
  {| urls := insert_or_replace_urls
               {| url_md5 := md5;
                  url := types.UrlRow.Url row;
                  title := types.UrlRow.Title row;
                  description := types.UrlRow.Description row;
                  last_visit := lastVisit |} (urls db);
     visits := visits db;
     visits_seq := visits_seq db |}.

(** [InsertVisit]. *)
Definition InsertVisit (db : DB) (row : types.VisitRow.t) : DB :=
  let md5 := HashMd5String (types.VisitRow.Url row) in
  insert_or_ignore_visits md5 (time.Unix (types.VisitRow.Datetime row))
                          (types.VisitRow.ExtractorName row) db.

End WithHash.

(** The columns of the index visits_unique. *)
Definition visits_key (r : visits_row) : string * Z :=
  (v_url_md5 r, visit_time r).

(** The invariant that the index visits_unique maintains. *)
Definition visits_unique (db : DB) : Prop :=
  NoDup (map visits_key (visits db)).

(** The rows of "visits" stored for a URL identifier at a given second. *)
Definition visits_at (db : DB) (md5 : string) (ts : Z) : list visits_row :=
  filter (fun r => (v_url_md5 r =? md5)%string && (visit_time r =? ts)) (visits db).

(** The invariant of the primary key and of the UNIQUE column of "urls". *)
Definition urls_unique (db : DB) : Prop :=
  NoDup (map url_md5 (urls db)) /\ NoDup (map url (urls db)).

(** The rows of "urls" stored for a URL. *)
Definition urls_for (db : DB) (u : string) : list urls_row :=
  filter (fun r => (url r =? u)%string) (urls db).

End persistence.

(** ** pkg/search (the second half of persistence.go) *)
Module search.
Import persistence.

(** A hit of the document index; [SearchUrls] reads only its [ID]. *)
Record DocumentMatch : Type := mkHit { ID : string }.

(** [bleve.SearchResult]: the hits in ranked order and the total number of
    matches. *)
Record SearchResult : Type := mkSearchResult
  { Hits : list DocumentMatch;
    Total : Z }.

(** [bleve.SearchRequest], the fields [SearchBleve] sets. *)
Record SearchRequest : Type := mkSearchRequest
  { Query : string;
    Size : Z;
    Fields : list string;
    IncludeLocations : bool }.

Record URLQueryResult : Type := mkURLQueryResult
  { Urls : list types.UrlDbEntity.t;
    Count : Z;
    Meta : SearchResult }.

Section WithIndex.

(** The document index is bleve's: [populate.GetIndex] hands out the
    index and [Search] answers a request with ranked hits. *)
Variable Index : Type.
Variable GetIndex : result Index.
Variable Search : Index -> SearchRequest -> result SearchResult.

(** [persistence.OpenConnection(p.ctx, p.conf)]: a handle on the store
    at the configured path, or the error of [sql.Open]. *)
Variable OpenConnection : result Conn.

(** [SearchBleve]. *)
Definition SearchBleve (query : string) : result SearchResult :=
  let req := {| Query := query;
                Size := 100;
                Fields := ["id"; "url"; "title"; "description"; "last_visit"];
                IncludeLocations := true |} in
  match GetIndex with
  | Err e => Err e
  | Ok idx => Search idx req
  end.

(** [SearchUrls]: the ids of the hits, in hit order, go to [UrlsById];
    its error is returned, and otherwise its rows as they come. *)
Definition SearchUrls (query : string) : result URLQueryResult :=
  match SearchBleve query with
  | Err e => Err e
  | Ok r =>
      let ids := map ID (Hits r) in
      match OpenConnection with
      | Err e => Err e
      | Ok conn =>
          match UrlsById_on conn ids with
          | Err e => Err e
          | Ok xs => Ok {| Urls := xs; Count := Total r; Meta := r |}
          end
      end
  end.

End WithIndex.

(** The order the specification asks of the gateway: the returned records,
    read by identifier, are the ranked identifiers that were found, in
    ranked order. *)
Definition in_rank_order (ranked : list string)
           (xs : list types.UrlDbEntity.t) : Prop :=
  map types.UrlDbEntity.UrlMd5 xs
  = filter (fun i => mem_string i (map types.UrlDbEntity.UrlMd5 xs)) ranked.

End search.

(** ** pkg/extractors *)
Module extractors.

(** The implementations of [types.Extractor] that discovery creates. *)
Inductive Extractor : Type :=
| ChromiumExtractor (Name HistoryDBPath : string)
| FirefoxExtractor (Name HistoryDBPath : string)
| SafariExtractor (Name HistoryDBPath : string).

Definition GetName (a : Extractor) : string :=
  match a with
  | ChromiumExtractor n _ | FirefoxExtractor n _ | SafariExtractor n _ => n
  end.

Definition GetDBPath (a : Extractor) : string :=
  match a with
  | ChromiumExtractor _ p | FirefoxExtractor _ p | SafariExtractor _ p => p
  end.

(** [fs.FileInfo] and [fs.DirEntry], as far as discovery looks at them. *)
Record FileInfo : Type := mkFileInfo { IsDir : bool }.
Record DirEntry : Type := mkDirEntry { d_Name : string; d_IsDir : bool }.

Record pathSpec : Type := mkPathSpec
  { name : string;
    path : string;
    findDBs : string -> result (list string);
    createExtractor : string -> string -> Extractor }.

Section WithFileSystem.

(** [util.Expanduser]. *)
Variable Expanduser : string -> string.
(** [os.Stat]. *)
Variable Stat : string -> result FileInfo.
(** [filepath.WalkDir root fn]: the entries the walk hands to [fn], in
    walk order, each with its path. *)
Variable WalkDir : string -> list (string * DirEntry).
(** [FindFirefoxDBs]. *)
Variable FindFirefoxDBs : string -> result (list string).

(** [FindChromiumDBs]: the callback keeps the files called History and
    always returns nil, so the walk never stops with an error. *)
Definition FindChromiumDBs (root : string) : result (list string) :=
  Ok (map fst
        (filter (fun pd => negb (d_IsDir (snd pd))
                           && (d_Name (snd pd) =? "History")%string)
                (WalkDir root))).

(** The [findDBs] of the safari entry. *)
Definition findSafariDBs (s : string) : result (list string) :=
  let dbPath := s ++ "History.db" in
  match Stat dbPath with
  | Err err => Err err
  | Ok _ => Ok [dbPath]
  end.

Definition pathsToTry : list pathSpec :=
  [ {| name := "chrome";
       path := Expanduser "~/Library/Application Support/Google/Chrome/";
       findDBs := FindChromiumDBs;
       createExtractor := ChromiumExtractor |};
    {| name := "vivaldi";
       path := Expanduser "~/Library/Application Support/Vivaldi";
       findDBs := FindChromiumDBs;
       createExtractor := ChromiumExtractor |};
    {| name := "firefox";
       path := Expanduser "~/Library/Application Support/Firefox/Profiles/";
       findDBs := FindFirefoxDBs;
       createExtractor := FirefoxExtractor |};
    {| name := "safari";
       path := Expanduser "~/Library/Safari/";
       findDBs := findSafariDBs;
       createExtractor := SafariExtractor |} ].

(** A location is usable when [os.Stat] succeeds on it and it is a
    directory. *)
Definition valid_dir (p : string) : bool :=
  match Stat p with
  | Err _ => false
  | Ok stat => IsDir stat
  end.

(** The loop of [BuildExtractorList] over the remaining entries;
    [found] is the slice [result] and [out] the log so far. *)
Fixpoint discover (specs : list pathSpec) (found : list Extractor)
         (out : list Output) : result (list Extractor) * list Output :=
  match specs with
  | [] => (Ok found, out)
  | x :: rest =>
      if negb (valid_dir (path x))
      then discover rest found (out ++ [Log ("Skipping invalid path: " ++ path x)])
      else
        match findDBs x (path x) with
        | Err err => (Err err, out)
        | Ok dbs =>
            discover rest (found ++ map (createExtractor x (name x)) dbs) out
        end
  end.

(** [BuildExtractorList]. *)
Definition BuildExtractorList : result (list Extractor) * list Output :=
  discover pathsToTry [] [].

End WithFileSystem.

End extractors.

(** ** cmd/populate.go *)
Module cmd.
Import persistence extractors.

(** How the process ends: its exit status, the store it leaves (if it was
    opened) and what it wrote. *)
Record Outcome : Type := mkOutcome
  { status : Z;
    store : option DB;
    output : list Output }.

(** The [for] loop over the extractors either calls [os.Exit] or runs to
    its end with the collected errors. *)
Inductive LoopResult : Type :=
| Exited (code : Z) (db : DB) (out : list Output)
| Completed (db : DB) (errs : list error) (out : list Output).

Section populateCmd.

(** [populate.PopulateAll], [populate.PopulateSinceTime] and
    [populate.BuildIndex]: each works on the store and may return an
    error. *)
Variable PopulateAll : Extractor -> DB -> DB * option error.
Variable PopulateSinceTime : Extractor -> time.Time -> DB -> DB * option error.
Variable BuildIndex : DB -> DB * result Z.

(** The flags --browser, --latest and --build-index. *)
Variable browserName : string.
Variable onlyLatest : bool.
Variable shouldBuildIndex : bool.

(** The [continue] at the head of the loop body. *)
Definition skipped (x : Extractor) : bool :=
  negb (browserName =? "")%string && negb (GetName x =? browserName)%string.

Fixpoint populateLoop (xs : list Extractor) (db : DB) (errs : list error)
         (out : list Output) : LoopResult :=
  match xs with
  | [] => Completed db errs out
  | x :: rest =>
      if skipped x then populateLoop rest db errs out
      else
        let since := time.time_Unix 0 0 in
        match (if onlyLatest then GetLatestTime db (GetName x) else Ok since) with
        | Err err =>
            Exited 1 db (out ++ [Print ("could not get latest time " ++ err)])
        | Ok since =>
            let '(db', err) :=
              if onlyLatest then PopulateSinceTime x since db
              else PopulateAll x db in
            match err with
            | Some e =>
                populateLoop rest db' (errs ++ [Wrap e (GetName x ++ " error:")]) out
            | None => populateLoop rest db' errs out
            end
        end
  end.

(** The line [fmt.Printf("Indexed %d records in %v\n", n, ...)]; the
    elapsed time is left out. *)
Definition indexed_line (n : Z) : Output :=
  Print ("Indexed " ++ NilZero.string_of_int (Z.to_int n) ++ " records").

(** [Run], from the result of [BuildExtractorList] and of [InitDb] on.
    Returning from [Run] ends the process with status 0. *)
Definition Run (found : result (list Extractor)) (dbConn : result DB)
  : Outcome :=
  match found with
  | Err err =>
      {| status := 1; store := None;
         output := [Log ("error getting extractors " ++ err)] |}
  | Ok xs =>
      match dbConn with
      | Err err =>
          {| status := 1; store := None;
             output := [Print ("could not open our db " ++ err)] |}
      | Ok db =>
          match populateLoop xs db [] [] with
          | Exited code db' out =>
              {| status := code; store := Some db'; output := out |}
          | Completed db' errs out =>
              let out := (out ++ map Log errs)%list in
              match (if (0 <? Z.of_nat (List.length errs))
                     then Some "one or more browsers failed" else None) with
              | Some err =>
                  {| status := 1; store := Some db';
                     output := (out ++ [Print ("Encountered an error " ++ err)])%list |}
              | None =>
                  if shouldBuildIndex then
                    let out := (out ++ [Print "Indexing results..."])%list in
                    match BuildIndex db' with
                    | (db'', Err err) =>
                        {| status := 1; store := Some db'';
                           output := (out ++
                             [Print ("encountered an error building the search index "
                                     ++ err)])%list |}
                    | (db'', Ok n) =>
                        {| status := 0; store := Some db'';
                           output := (out ++ [indexed_line n])%list |}
                    end
                  else {| status := 0; store := Some db'; output := out |}
              end
          end
      end
  end.

(** The error the driver collects for a failed import: the message starts
    with the name of the source. *)
Definition collected (xe : Extractor * option error) : list error :=
  match snd xe with
  | Some e => [Wrap e (GetName (fst xe) ++ " error:")]
  | None => []
  end.

(** The imports of a run that reaches the end of the loop, as a relation:
    [sync xs db l db'] when the loop over [xs] from store [db] imports, in
    order, the sources of [l], each with the error its import returned, and
    leaves the store [db'].  No rule applies when a cursor lookup fails. *)
Inductive sync : list Extractor -> DB -> list (Extractor * option error)
                 -> DB -> Prop :=
| sync_done db : sync [] db [] db
| sync_skip x rest db l db' :
    skipped x = true ->
    sync rest db l db' ->
    sync (x :: rest) db l db'
| sync_full x rest db db1 err l db' :
    skipped x = false ->
    onlyLatest = false ->
    PopulateAll x db = (db1, err) ->
    sync rest db1 l db' ->
    sync (x :: rest) db ((x, err) :: l) db'
| sync_latest x rest db since db1 err l db' :
    skipped x = false ->
    onlyLatest = true ->
    GetLatestTime db (GetName x) = Ok since ->
    PopulateSinceTime x since db = (db1, err) ->
    sync rest db1 l db' ->
    sync (x :: rest) db ((x, err) :: l) db'.

(** The sources of a run whose import failed. *)
Definition failed (l : list (Extractor * option error)) : list Extractor :=
  map fst (filter (fun xe => match snd xe with Some _ => true | None => false end) l).

End populateCmd.

End cmd.

(** ** pkg/persistence, the table "urls_meta" *)
Module meta.
Import persistence.

(** [types.UrlMetaRow]. *)
Record UrlMetaRow : Type := mkUrlMetaRow
  { Url : string;
    IndexedAt : option time.Time }.

(** A row of "urls_meta": [m_id] is INTEGER PRIMARY KEY AUTOINCREMENT and
    [m_url_md5] is UNIQUE. *)
Record urls_meta_row : Type := mk_urls_meta_row
  { m_id : Z;
    m_url_md5 : string;
    indexed_at : Z }.

(** The table in rowid order with its AUTOINCREMENT counter. *)
Record Table : Type := mkTable
  { rows : list urls_meta_row;
    seq : Z }.

Definition empty : Table := {| rows := []; seq := 0 |}.

(** The local [indexed_at] of [InsertUrlMeta]. *)
Definition indexed_at_of (row : UrlMetaRow) : Z :=
  match IndexedAt row with
  | Some t => time.Unix t
  | None => 0
  end.

Section WithHash.

Variable HashMd5String : string -> string.

(** [InsertUrlMeta]: INSERT OR REPLACE INTO urls_meta(url_md5, indexed_at).
    The row that holds the same [url_md5] is deleted and the new row is
    inserted under the next id. *)
Definition InsertUrlMeta (t : Table) (row : UrlMetaRow) : Table :=
  let md5 := HashMd5String (Url row) in
  let indexed_at := indexed_at_of row in
  {| rows := filter (fun x => negb (m_url_md5 x =? md5)%string) (rows t)
             ++ [{| m_id := seq t + 1; m_url_md5 := md5;
                    indexed_at := indexed_at |}];
     seq := seq t + 1 |}.

End WithHash.

(** The invariant of the UNIQUE column of "urls_meta". *)
Definition meta_unique (t : Table) : Prop := NoDup (map m_url_md5 (rows t)).

(** The meta rows of an identifier. *)
Definition meta_for (t : Table) (md5 : string) : list urls_meta_row :=
  filter (fun m => (m_url_md5 m =? md5)%string) (rows t).

(** urls LEFT OUTER JOIN urls_meta ON urls.url_md5 = urls_meta.url_md5:
    every "urls" row with each of its meta rows, or with NULLs when it has
    none. *)
Definition left_join (us : list urls_row) (t : Table)
  : list (urls_row * option urls_meta_row) :=
  flat_map (fun u =>
              match meta_for t (url_md5 u) with
              | [] => [(u, None)]
              | ms => map (fun m => (u, Some m)) ms
              end) us.

(** The value of a WHERE clause on a row: true, false or NULL. *)
Definition truth : Type := option bool.

(** A row is counted when the clause is true on it: not when it is false
    and not when it is NULL. *)
Definition holds (v : truth) : bool :=
  match v with
  | Some true => true
  | _ => false
  end.

(** NOT of a clause: NULL stays NULL. *)
Definition sql_not (v : truth) : truth := option_map negb v.

(** A clause IS NULL: true or false, never NULL. *)
Definition is_null (v : truth) : truth :=
  match v with
  | None => Some true
  | Some _ => Some false
  end.

(** [CountUrlsWhere]: SELECT COUNT( * ) over the join, restricted by the
    caller's WHERE clause.  The clause is taken by its meaning, its value
    on each joined row. *)
Definition CountUrlsWhere (db : DB) (t : Table)
           (where_ : urls_row -> option urls_meta_row -> truth) : Z :=
  Z.of_nat (List.length
              (filter (fun um => holds (where_ (fst um) (snd um)))
                      (left_join (urls db) t))).

End meta.

(** ** Sequences of writes to the store *)
Module writes.
Import persistence.

Inductive write : Type :=
| WriteUrl (row : types.UrlRow.t)
| WriteVisit (row : types.VisitRow.t).

Section WithHash.

Variable HashMd5String : string -> string.

Definition apply_write (db : DB) (w : write) : DB :=
  match w with
  | WriteUrl row => InsertUrl HashMd5String db row
  | WriteVisit row => InsertVisit HashMd5String db row
  end.

(** The store after a sequence of [InsertUrl] and [InsertVisit] calls. *)
Definition apply_writes (db : DB) (ws : list write) : DB :=
  fold_left apply_write ws db.

(** Every "urls" row is filed under the digest of its URL. *)
Definition urls_hashed (db : DB) : Prop :=
  forall r, In r (urls db) -> url_md5 r = HashMd5String (url r).

End WithHash.

(** The ids of "visits" grow along the table and stay within the counter. *)
Definition ids_ascending (db : DB) : Prop :=
  StronglySorted Z.lt (map id (visits db))
  /\ 0 <= visits_seq db
  /\ (forall r, In r (visits db) -> 0 < id r <= visits_seq db).

End writes.

(** ** pkg/extractors/chromium.go, reading a History database *)
Module chromium.

(** The tables of a Chromium History file, as far as the two queries read
    them. *)
Record src_url : Type := mk_src_url
  { u_id : Z;
    u_url : option string;
    u_title : option string }.

Record src_visit : Type := mk_src_visit
  { sv_url : Z;
    sv_visit_time : Z }.

Record History : Type := mkHistory
  { h_urls : list src_url;
    h_visits : list src_visit }.

(** [rows.Scan] of a NULL into a Go [string]. *)
Definition scan_null : error := "converting NULL to string is unsupported".

(** The loop of [GetAllUrls] over the rows of chromiumUrls: [url] is
    scanned into a string, as [HashMd5String] takes it, and [title] into a
    nullable one, as the data model of the specification has it; the
    first row that cannot be scanned ends the call with its error. *)
Fixpoint scan_urls (rows : list src_url) (urls : list types.UrlRow.t)
  : result (list types.UrlRow.t) :=
  match rows with
  | [] => Ok urls
  | r :: rest =>
      match u_url r with
      | None => Err scan_null
      | Some u =>
          scan_urls rest
            (urls ++ [{| types.UrlRow.Url := u;
                         types.UrlRow.Title := u_title r;
                         types.UrlRow.Description := None;
                         types.UrlRow.LastVisit := None |}])
      end
  end.

(** [GetAllUrls]; [conn] is the History file, or the error of the
    query. *)
Definition GetAllUrls (conn : result History) : result (list types.UrlRow.t) :=
  match conn with
  | Err err => Err err
  | Ok h => scan_urls (h_urls h) []
  end.

Section WithDatetime.

(** The column visit_date of chromiumVisits, computed by the engine from
    [visit_time]: a text, or NULL. *)
Variable visit_date : Z -> option string.
(** [util.ParseSQLiteDatetime]. *)
Variable ParseSQLiteDatetime : string -> result time.Time.

(** visits v INNER JOIN urls u ON v.url = u.id, with the two columns the
    query selects. *)
Definition joined (h : History) : list (option string * option string) :=
  flat_map (fun v =>
              map (fun u => (visit_date (sv_visit_time v), u_url u))
                  (filter (fun u => u_id u =? sv_url v) (h_urls h)))
           (h_visits h).

(** The loop of [GetAllVisits]: a row that cannot be scanned or whose
    date cannot be parsed ends the call with its error. *)
Fixpoint scan_visits (rows : list (option string * option string))
         (visits : list types.VisitRow.t) : result (list types.VisitRow.t) :=
  match rows with
  | [] => Ok visits
  | (ts, url) :: rest =>
      match ts, url with
      | Some ts, Some url =>
          match ParseSQLiteDatetime ts with
          | Err err => Err err
          | Ok t =>
              scan_visits rest
                (visits ++ [{| types.VisitRow.Url := url;
                               types.VisitRow.Datetime := t;
                               types.VisitRow.ExtractorName := "" |}])
          end
      | _, _ => Err scan_null
      end
  end.

(** [GetAllVisits]. *)
Definition GetAllVisits (conn : result History)
  : result (list types.VisitRow.t) :=
  match conn with
  | Err err => Err err
  | Ok h => scan_visits (joined h) []
  end.

(** A joined row that the loop accepts. *)
Definition readable (row : option string * option string) : bool :=
  match row with
  | (Some ts, Some _) => negb (is_err (ParseSQLiteDatetime ts))
  | _ => false
  end.

End WithDatetime.

(** *** The date of a visit, as the engine computes it

    chromiumVisits selects
    datetime(visit_time / 1e6 + strftime('%s', '1601-01-01'), 'unixepoch').
    The engine evaluates it in binary64: the integer [visit_time] becomes
    a real, is divided by the real 1e6, and the seconds of 1601-01-01 are
    added; the modifier unixepoch turns the seconds into milliseconds of
    the engine's day count, adds one half and cuts to an integer (NULL
    when out of range); the text shows the date down to the second and
    drops the milliseconds. *)

(** An int64 as a real, rounded to the nearest one. *)
Definition real_of_int64 (v : Z) : float :=
  if v <? 0 then PrimFloat.opp (PrimFloat.of_uint63 (Uint63.of_Z (- v)))
  else PrimFloat.of_uint63 (Uint63.of_Z v).

(** The cast of a real to int64: the fraction is cut off. *)
Definition int64_of_real (f : float) : Z :=
  match Prim2SF f with
  | S754_finite s m e =>
      let a := if 0 <=? e then Z.pos m * 2 ^ e else Z.pos m / 2 ^ (- e) in
      if s then - a else a
  | _ => 0
  end.

(** strftime('%s', '1601-01-01'): the Unix second of Chromium's epoch. *)
Definition epoch_1601 : Z := -11644473600.

(** The Unix second of the text in the column visit_date, or NULL. *)
Definition visit_date_unix (visit_time : Z) : option Z :=
  let seconds := (real_of_int64 visit_time / 1e6
                  + real_of_int64 epoch_1601)%float in
  let r := (seconds * 1000 + 210866760000000)%float in
  if (PrimFloat.leb 0 r && PrimFloat.ltb r 464269060800000)%bool
  then Some (int64_of_real (r + 0.5)%float / 1000 - 210866760000)
  else None.

(** The second in which a Chromium time lies: whole microseconds since
    1601-01-01, cut to seconds. *)
Definition second_of (visit_time : Z) : Z :=
  visit_time / 1000000 + epoch_1601.

End chromium.

(** ** Concrete data for the examples *)
Module Sample.
Import persistence extractors.

Definition example_com : string := "https://example.com".
Definition a_example : string := "https://a.example".
Definition b_example : string := "https://b.example".

(** [util.HashMd5String] on the URLs of the examples, with their MD5
    digests in hex; the examples hash no other string. *)
Definition hash (u : string) : string :=
  if (u =? a_example)%string then "f1e9de895bf5363a3cc0582708c7ce76"
  else if (u =? b_example)%string then "41caea2d84be5e267874a5d5b7a65f99"
  else if (u =? example_com)%string then "c984d06aafbecf6bc55569f964148ea3"
  else "".

Definition chrome : Extractor :=
  ChromiumExtractor "chrome" "/Users/u/Library/Application Support/Google/Chrome/Default/History".
Definition safari : Extractor :=
  SafariExtractor "safari" "/Users/u/Library/Safari/History.db".

Definition visit (u : string) (s n : Z) (by_ : string) : types.VisitRow.t :=
  {| types.VisitRow.Url := u;
     types.VisitRow.Datetime := time.mkTime s n;
     types.VisitRow.ExtractorName := by_ |}.

Definition page (u : string) (t : option string) (lv : option time.Time)
  : types.UrlRow.t :=
  {| types.UrlRow.Url := u;
     types.UrlRow.Title := t;
     types.UrlRow.Description := None;
     types.UrlRow.LastVisit := lv |}.

(** A store holding b.example (inserted first) and a.example.  The
    digest of b.example is also the smaller one, so the rows come in this
    order whether the engine walks the table or the index of its primary
    key. *)
Definition two_pages : DB :=
  InsertUrl hash
    (InsertUrl hash empty_db
       (page b_example (Some "B") (Some (time.mkTime 200 0))))
    (page a_example (Some "A") None).

(** An index that ranks a.example before b.example for every query. *)
Definition a_then_b : search.SearchResult :=
  {| search.Hits := [search.mkHit (hash a_example); search.mkHit (hash b_example)];
     search.Total := 2 |}.

(** A machine of user u on which only the Safari directory exists, and
    nothing in it. *)
Definition expanduser (p : string) : string :=
  match p with
  | String "~"%char rest => "/Users/u" ++ rest
  | _ => p
  end.

Definition safari_dir_only (p : string) : result FileInfo :=
  if (p =? "/Users/u/Library/Safari/")%string
  then Ok {| IsDir := true |}
  else Err ("stat " ++ p ++ ": no such file or directory").

Definition nothing_stat (p : string) : result FileInfo :=
  Err ("stat " ++ p ++ ": no such file or directory").

Definition empty_walk (root : string) : list (string * DirEntry) := [].

Definition no_firefox_dbs (root : string) : result (list string) := Ok [].

(** Imports for the examples: a source has one visit of example.com at
    second 100 to offer; reading chrome's database fails. *)
Definition unreadable : error := "unable to open database file".

Definition import_all (x : Extractor) (db : DB) : DB * option error :=
  if (GetName x =? "chrome")%string then (db, Some unreadable)
  else (InsertVisit hash db (visit example_com 100 0 (GetName x)), None).

Definition import_since (x : Extractor) (since : time.Time) (db : DB)
  : DB * option error :=
  if (GetName x =? "chrome")%string then (db, Some unreadable)
  else if time.Unix since <? 100
       then (InsertVisit hash db (visit example_com 100 0 (GetName x)), None)
       else (db, None).

Definition index_ok (db : DB) : DB * result Z := (db, Ok 0).
Definition index_broken (db : DB) : DB * result Z :=
  (db, Err "cannot open index").

(** A store in which chrome has a visit and safari has none. *)
Definition chrome_visited : DB :=
  InsertVisit hash empty_db (visit example_com 50 0 "chrome").

End Sample.

(** ** More concrete data *)
Module Fixture.
Import persistence extractors.

(** "urls_meta" after b.example was indexed at second 300. *)
Definition b_indexed : meta.Table :=
  meta.InsertUrlMeta Sample.hash meta.empty
    {| meta.Url := Sample.b_example;
       meta.IndexedAt := Some (time.mkTime 300 0) |}.

(** The WHERE clause urls_meta.indexed_at IS NULL: never NULL itself. *)
Definition not_indexed (u : urls_row) (m : option meta.urls_meta_row)
  : meta.truth :=
  match m with
  | None => Some true
  | Some _ => Some false
  end.

(** The WHERE clause urls_meta.indexed_at > 0: NULL on a URL without a
    meta row. *)
Definition indexed_after_0 (u : urls_row) (m : option meta.urls_meta_row)
  : meta.truth :=
  match m with
  | None => None
  | Some m => Some (0 <? meta.indexed_at m)
  end.

(** The two pages stored the other way round: a.example first, although
    its digest is the greater one. *)
Definition two_pages_a_first : DB :=
  InsertUrl Sample.hash
    (InsertUrl Sample.hash empty_db (Sample.page Sample.a_example (Some "A") None))
    (Sample.page Sample.b_example (Some "B") (Some (time.mkTime 200 0))).

(** One identifier too many for a statement: the digest of b.example and
    32766 times an unknown one. *)
Definition too_many_ids : list string :=
  Sample.hash Sample.b_example
  :: repeat "00000000000000000000000000000000" (Z.to_nat 32766).

(** A History file with two pages, two visits of the first page and one
    visit of a page that is gone from the table of URLs. *)
Definition history : chromium.History :=
  {| chromium.h_urls :=
       [ {| chromium.u_id := 1; chromium.u_url := Some Sample.a_example;
            chromium.u_title := Some "A" |};
         {| chromium.u_id := 2; chromium.u_url := Some Sample.b_example;
            chromium.u_title := None |} ];
     chromium.h_visits :=
       [ {| chromium.sv_url := 1; chromium.sv_visit_time := 13300000000000000 |};
         {| chromium.sv_url := 1; chromium.sv_visit_time := 13300000060000000 |};
         {| chromium.sv_url := 7; chromium.sv_visit_time := 13300000120000000 |} ] |}.

(** The same file with a visit whose date the engine cannot compute. *)
Definition history_with_bad_visit : chromium.History :=
  {| chromium.h_urls := chromium.h_urls history;
     chromium.h_visits :=
       chromium.h_visits history
       ++ [ {| chromium.sv_url := 2; chromium.sv_visit_time := -1 |} ] |}.

(** Stand-ins for the engine's date column and for the parser: the date
    text is the number of whole seconds, and negative times have no date. *)
Definition seconds_text (v : Z) : option string :=
  if v <? 0 then None
  else Some (NilZero.string_of_int (Z.to_int (v / 1000000))).

Definition parse_seconds (s : string) : result time.Time :=
  match NilZero.int_of_string s with
  | Some i => Ok (time.mkTime (Z.of_int i) 0)
  | None => Err ("cannot parse " ++ s)
  end.

(** A machine of user u on which only the Chrome directory exists. *)
Definition chrome_dir : string :=
  "/Users/u/Library/Application Support/Google/Chrome/".

Definition chrome_dir_only (p : string) : result FileInfo :=
  if (p =? chrome_dir)%string then Ok {| IsDir := true |}
  else Err ("stat " ++ p ++ ": no such file or directory").

(** The walk of the Chrome directory: two profiles with a History file
    each, and a directory that is called History. *)
Definition chrome_walk (root : string) : list (string * DirEntry) :=
  if (root =? chrome_dir)%string then
    [ (root, {| d_Name := "Chrome"; d_IsDir := true |});
      (root ++ "Default", {| d_Name := "Default"; d_IsDir := true |});
      (root ++ "Default/History", {| d_Name := "History"; d_IsDir := false |});
      (root ++ "Default/Cookies", {| d_Name := "Cookies"; d_IsDir := false |});
      (root ++ "History", {| d_Name := "History"; d_IsDir := true |});
      (root ++ "Profile 1", {| d_Name := "Profile 1"; d_IsDir := true |});
      (root ++ "Profile 1/History", {| d_Name := "History"; d_IsDir := false |}) ]
  else [].

(** Safari with its database in place. *)
Definition safari_complete (p : string) : result FileInfo :=
  if (p =? "/Users/u/Library/Safari/")%string then Ok {| IsDir := true |}
  else if (p =? "/Users/u/Library/Safari/History.db")%string
       then Ok {| IsDir := false |}
       else Err ("stat " ++ p ++ ": no such file or directory").

(** An import that must not be called. *)
Definition never_all (x : Extractor) (db : DB) : DB * option error :=
  (empty_db, Some "called").
Definition never_since (x : Extractor) (since : time.Time) (db : DB)
  : DB * option error :=
  (empty_db, Some "called").

End Fixture.

(** * Properties *)

(** ** Lists *)

Lemma NoDup_snoc {A} (l : list A) (a : A) :
  NoDup l -> ~ In a l -> NoDup (l ++ [a]).
Proof.
  induction l as [|x l IH]; simpl; intros ND Hn.
  - constructor; [tauto | constructor].
  - inversion ND as [|? ? Hx ND']; subst. constructor.
    + rewrite in_app_iff. simpl. intros [H | [H | []]]; [tauto | subst; tauto].
    + apply IH; tauto.
Qed.

(** ** Visits: one row per URL identifier and second *)
Section VisitFacts.
Import persistence.

Local Abbreviation key := visits_key.

Lemma visits_same_key_spec a b :
  visits_same_key a b = true <-> key a = key b.
Proof.
  unfold visits_same_key, visits_key. rewrite andb_true_iff, String.eqb_eq, Z.eqb_eq.
  split; [intros [-> ->]; reflexivity | intros [= -> ->]; auto].
Qed.

Lemma at_key_spec m ts r :
  (v_url_md5 r =? m)%string && (visit_time r =? ts)%Z = true <-> key r = (m, ts).
Proof.
  unfold visits_key. rewrite andb_true_iff, String.eqb_eq, Z.eqb_eq.
  split; [intros [-> ->]; reflexivity | intros [= -> ->]; auto].
Qed.

(** Under the unique index a key selects at most one row. *)
Lemma unique_key_at_most_one (l : list visits_row) m ts :
  NoDup (map key l) ->
  (List.length (filter (fun r => (v_url_md5 r =? m)%string && (visit_time r =? ts)%Z) l)
     <= 1)%nat.
Proof.
  induction l as [|r l IH]; simpl; intros ND; [lia|].
  inversion ND as [|? ? Hnotin ND']; subst.
  destruct ((v_url_md5 r =? m)%string && (visit_time r =? ts)%Z) eqn:E.
  - apply at_key_spec in E. simpl.
    assert (Hnil : filter (fun r0 => (v_url_md5 r0 =? m)%string
                                     && (visit_time r0 =? ts)%Z) l = []).
    { destruct (filter _ l) as [|x xs] eqn:F; [reflexivity|].
      exfalso. apply Hnotin.
      assert (Hx : In x (filter (fun r0 => (v_url_md5 r0 =? m)%string
                                           && (visit_time r0 =? ts)%Z) l))
        by (rewrite F; left; reflexivity).
      apply filter_In in Hx. destruct Hx as [Hin Hk].
      apply at_key_spec in Hk. rewrite E, <- Hk. apply in_map, Hin. }
    rewrite Hnil. simpl. lia.
  - apply IH, ND'.
Qed.

Lemma existsb_same_key (l : list visits_row) r :
  existsb (fun x => visits_same_key x r) l = true <-> In (key r) (map key l).
Proof.
  rewrite existsb_exists, in_map_iff. split.
  - intros [x [Hin Hk]]. apply visits_same_key_spec in Hk. eauto.
  - intros [x [Hk Hin]]. exists x. split; [assumption|].
    apply visits_same_key_spec. assumption.
Qed.

Lemma insert_or_ignore_unique md5 ts name db :
  visits_unique db -> visits_unique (insert_or_ignore_visits md5 ts name db).
Proof.
  unfold visits_unique, insert_or_ignore_visits. simpl. intros ND.
  destruct (existsb _ (visits db)) eqn:E; [assumption|].
  rewrite map_app. simpl. apply NoDup_snoc; [assumption|].
  intros Hin.
  assert (Ht : existsb (fun x => visits_same_key x
                 {| id := visits_seq db + 1; v_url_md5 := md5;
                    visit_time := ts; extractor_name := name |})
                 (visits db) = true)
    by (apply existsb_same_key; exact Hin).
  congruence.
Qed.

Lemma visits_at_hit md5 ts name db :
  visits_unique db ->
  List.length (visits_at (insert_or_ignore_visits md5 ts name db) md5 ts) = 1%nat.
Proof.
  intros U. unfold visits_at, insert_or_ignore_visits. simpl.
  destruct (existsb _ (visits db)) eqn:E.
  - pose proof (unique_key_at_most_one (visits db) md5 ts U) as Hle.
    apply existsb_exists in E. destruct E as [x [Hin Hk]].
    apply visits_same_key_spec in Hk. simpl in Hk.
    assert (Hx : In x (filter (fun r => (v_url_md5 r =? md5)%string
                                        && (visit_time r =? ts)%Z) (visits db))).
    { apply filter_In. split; [assumption|]. apply at_key_spec. exact Hk. }
    destruct (filter _ (visits db)) as [|y [|z l]]; simpl in *; [tauto | lia | lia].
  - rewrite filter_app. simpl. rewrite String.eqb_refl, Z.eqb_refl. simpl.
    rewrite length_app. simpl.
    destruct (filter _ (visits db)) as [|y l] eqn:F; [reflexivity|].
    exfalso.
    assert (Hy : In y (filter (fun r => (v_url_md5 r =? md5)%string
                                        && (visit_time r =? ts)%Z) (visits db)))
      by (rewrite F; left; reflexivity).
    apply filter_In in Hy. destruct Hy as [Hin Hk].
    assert (Ht : existsb (fun x => visits_same_key x
                   {| id := visits_seq db + 1; v_url_md5 := md5;
                      visit_time := ts; extractor_name := name |})
                   (visits db) = true).
    { apply existsb_exists. exists y. split; [assumption|].
      apply visits_same_key_spec. apply at_key_spec in Hk. exact Hk. }
    congruence.
Qed.

Lemma visits_at_miss md5 ts name db md5' ts' :
  (md5, ts) <> (md5', ts') ->
  visits_at (insert_or_ignore_visits md5 ts name db) md5' ts'
  = visits_at db md5' ts'.
Proof.
  intros Hne. unfold visits_at, insert_or_ignore_visits. simpl.
  destruct (existsb _ (visits db)); [reflexivity|].
  rewrite filter_app. simpl.
  destruct ((md5 =? md5')%string && (ts =? ts')%Z) eqn:E.
  - apply andb_true_iff in E. destruct E as [E1 E2].
    apply String.eqb_eq in E1. apply Z.eqb_eq in E2. congruence.
  - apply app_nil_r.
Qed.

(** A repeated key leaves the rows alone. *)
Lemma insert_or_ignore_again md5 ts n1 n2 db :
  visits (insert_or_ignore_visits md5 ts n2 (insert_or_ignore_visits md5 ts n1 db))
  = visits (insert_or_ignore_visits md5 ts n1 db).
Proof.
  unfold insert_or_ignore_visits at 1. simpl.
  match goal with |- (if ?b then _ else _) = _ => destruct b eqn:E end;
    [reflexivity|].
  exfalso.
  assert (Ht : existsb (fun x => visits_same_key x
                 {| id := visits_seq db + 1 + 1; v_url_md5 := md5;
                    visit_time := ts; extractor_name := n2 |})
               (if existsb (fun x => visits_same_key x
                      {| id := visits_seq db + 1; v_url_md5 := md5;
                         visit_time := ts; extractor_name := n1 |}) (visits db)
                then visits db
                else (visits db ++
                      [{| id := visits_seq db + 1; v_url_md5 := md5;
                          visit_time := ts; extractor_name := n1 |}])%list) = true).
  { destruct (existsb _ (visits db)) eqn:E1.
    - rewrite <- E1. apply eq_true_iff_eq. rewrite !existsb_same_key.
      unfold visits_key. simpl. tauto.
    - rewrite existsb_app. apply orb_true_iff. right. simpl.
      unfold visits_same_key. simpl. rewrite String.eqb_refl, Z.eqb_refl.
      reflexivity. }
  congruence.
Qed.

End VisitFacts.

(** Two visits of one URL are inserted, one after the other, into a
    store that respects the unique index.  When both fall in the same Unix
    second the store keeps one row for that URL and second, whatever the
    two extractor names are, and the second insert leaves the rows as they
    were; when they fall in different seconds the store keeps one row for
    each.  From the empty store that makes one row, respectively two rows,
    in the table. *)
Lemma InsertVisit_rows_by_second
        (HashMd5String : string -> string)
        (db : persistence.DB) (v1 v2 : types.VisitRow.t) :
  persistence.visits_unique db ->
  types.VisitRow.Url v1 = types.VisitRow.Url v2 ->
  let t1 := time.Unix (types.VisitRow.Datetime v1) in
  let t2 := time.Unix (types.VisitRow.Datetime v2) in
  let m := HashMd5String (types.VisitRow.Url v1) in
  let db1 := persistence.InsertVisit HashMd5String db v1 in
  let db2 := persistence.InsertVisit HashMd5String db1 v2 in
  persistence.visits_unique db2 /\
  (t1 = t2 ->
   List.length (persistence.visits_at db2 m t1) = 1%nat /\
   persistence.visits db2 = persistence.visits db1 /\
   (persistence.visits db = [] -> List.length (persistence.visits db2) = 1%nat)) /\
  (t1 <> t2 ->
   List.length (persistence.visits_at db2 m t1) = 1%nat /\
   List.length (persistence.visits_at db2 m t2) = 1%nat /\
   (persistence.visits db = [] -> List.length (persistence.visits db2) = 2%nat)).
Proof.
  intros U Hurl t1 t2 m db1 db2.
  assert (U1 : persistence.visits_unique db1)
    by (apply insert_or_ignore_unique; exact U).
  assert (E2 : db2 = persistence.insert_or_ignore_visits m t2
                       (types.VisitRow.ExtractorName v2) db1).
  { unfold db2, persistence.InsertVisit, m, t2. rewrite Hurl. reflexivity. }
  split; [rewrite E2; apply insert_or_ignore_unique; exact U1|].
  split.
  - intros Ht. rewrite E2, <- Ht.
    split; [apply visits_at_hit; exact U1|].
    assert (Hsame : persistence.visits
                      (persistence.insert_or_ignore_visits m t1
                         (types.VisitRow.ExtractorName v2) db1)
                    = persistence.visits db1)
      by apply insert_or_ignore_again.
    split; [exact Hsame|].
    intros Hnil. rewrite Hsame.
    unfold db1, persistence.InsertVisit, persistence.insert_or_ignore_visits.
    simpl. rewrite Hnil. reflexivity.
  - intros Ht. split; [|split].
    + rewrite E2, visits_at_miss by congruence.
      apply visits_at_hit; exact U.
    + rewrite E2. apply visits_at_hit; exact U1.
    + intros Hnil. rewrite E2.
      unfold db1, persistence.InsertVisit, persistence.insert_or_ignore_visits.
      simpl. rewrite Hnil. simpl.
      fold m. fold t1.
      unfold persistence.visits_same_key. simpl.
      rewrite String.eqb_refl. simpl.
      destruct (t1 =? t2) eqn:E; [apply Z.eqb_eq in E; contradiction|].
      reflexivity.
Qed.

(** Visit timestamps are whole seconds; two of them are the same exactly
    when their Unix seconds are. *)
Lemma whole_seconds_equal (t1 t2 : time.Time) :
  time.whole_second t1 -> time.whole_second t2 ->
  (t1 = t2 <-> time.Unix t1 = time.Unix t2).
Proof.
  unfold time.whole_second, time.Unix. destruct t1 as [s1 n1], t2 as [s2 n2].
  simpl. intros -> ->. split; [intros [= ->]; reflexivity | intros ->; reflexivity].
Qed.

(** C1.  Two visit events of one URL, with timestamps in the canonical
    second resolution, are inserted one after the other into a store that
    respects the unique index.  When they carry the same timestamp the
    store keeps exactly one row for that URL and timestamp, whether their
    extractor names are the same or not, and the second insert leaves the
    rows as they were; when they carry different timestamps the store
    keeps one row for each.  From the empty store that makes exactly one,
    respectively two, stored rows. *)
Theorem InsertVisit_one_row_per_url_and_timestamp
        (HashMd5String : string -> string)
        (db : persistence.DB) (v1 v2 : types.VisitRow.t) :
  persistence.visits_unique db ->
  time.whole_second (types.VisitRow.Datetime v1) ->
  time.whole_second (types.VisitRow.Datetime v2) ->
  types.VisitRow.Url v1 = types.VisitRow.Url v2 ->
  let t1 := time.Unix (types.VisitRow.Datetime v1) in
  let t2 := time.Unix (types.VisitRow.Datetime v2) in
  let m := HashMd5String (types.VisitRow.Url v1) in
  let db1 := persistence.InsertVisit HashMd5String db v1 in
  let db2 := persistence.InsertVisit HashMd5String db1 v2 in
  persistence.visits_unique db2 /\
  (types.VisitRow.Datetime v1 = types.VisitRow.Datetime v2 ->
   List.length (persistence.visits_at db2 m t1) = 1%nat /\
   persistence.visits db2 = persistence.visits db1 /\
   (persistence.visits db = [] -> List.length (persistence.visits db2) = 1%nat)) /\
  (types.VisitRow.Datetime v1 <> types.VisitRow.Datetime v2 ->
   List.length (persistence.visits_at db2 m t1) = 1%nat /\
   List.length (persistence.visits_at db2 m t2) = 1%nat /\
   (persistence.visits db = [] -> List.length (persistence.visits db2) = 2%nat)).
Proof.
  intros U W1 W2 Hurl t1 t2 m db1 db2.
  destruct (InsertVisit_rows_by_second HashMd5String db v1 v2 U Hurl)
    as [U2 [Hsame Hdiff]].
  pose proof (whole_seconds_equal _ _ W1 W2) as Heq.
  split; [exact U2|]. split.
  - intros Ht. apply Hsame. apply Heq. exact Ht.
  - intros Ht. apply Hdiff. intros Hu. apply Ht. apply Heq. exact Hu.
Qed.

(** C1, at a concrete input: two browsers report the same page at the
    same timestamp and at different timestamps. *)
Lemma InsertVisit_one_row_per_url_and_timestamp_witness :
  let a := Sample.visit Sample.example_com 100 0 "chrome" in
  let b := Sample.visit Sample.example_com 100 0 "firefox" in
  let c := Sample.visit Sample.example_com 200 0 "firefox" in
  List.length (persistence.visits
     (persistence.InsertVisit Sample.hash
        (persistence.InsertVisit Sample.hash persistence.empty_db a) b)) = 1%nat /\
  List.length (persistence.visits
     (persistence.InsertVisit Sample.hash
        (persistence.InsertVisit Sample.hash persistence.empty_db a) c)) = 2%nat.
Proof.
  intros a b c.
  assert (U : persistence.visits_unique persistence.empty_db) by constructor.
  split.
  - destruct (InsertVisit_one_row_per_url_and_timestamp Sample.hash
                persistence.empty_db a b U eq_refl eq_refl eq_refl)
      as [_ [Hsame _]].
    destruct (Hsame eq_refl) as [_ [_ Hlen]]. apply Hlen. reflexivity.
  - destruct (InsertVisit_one_row_per_url_and_timestamp Sample.hash
                persistence.empty_db a c U eq_refl eq_refl eq_refl)
      as [_ [_ Hdiff]].
    assert (Hne : types.VisitRow.Datetime a <> types.VisitRow.Datetime c)
      by discriminate.
    destruct (Hdiff Hne) as [_ [_ Hlen]]. apply Hlen. reflexivity.
Defined.

(** A Go time carries nanoseconds, which the store does not keep: two
    visits of one URL half a second apart are one row. *)
Lemma InsertVisit_within_one_second :
  let a := Sample.visit Sample.example_com 100 0 "chrome" in
  let b := Sample.visit Sample.example_com 100 500000000 "firefox" in
  List.length (persistence.visits
     (persistence.InsertVisit Sample.hash
        (persistence.InsertVisit Sample.hash persistence.empty_db a) b)) = 1%nat.
Proof. reflexivity. Qed.

(** ** URLs: insert-or-replace *)
Section UrlFacts.
Import persistence.

Lemma urls_conflict_refl r : urls_conflict r r = true.
Proof. unfold urls_conflict. rewrite String.eqb_refl. reflexivity. Qed.

Lemma filter_twice {A} (p : A -> bool) (l : list A) :
  filter p (filter p l) = filter p l.
Proof.
  induction l as [|x l IH]; simpl; [reflexivity|].
  destruct (p x) eqn:E; simpl; [rewrite E, IH; reflexivity | exact IH].
Qed.

Lemma insert_or_replace_twice r t :
  insert_or_replace_urls r (insert_or_replace_urls r t)
  = insert_or_replace_urls r t.
Proof.
  unfold insert_or_replace_urls.
  rewrite filter_app, filter_twice. simpl.
  rewrite urls_conflict_refl. simpl. rewrite app_nil_r. reflexivity.
Qed.

(** After the statement the new row is the only one with its URL ... *)
Lemma insert_or_replace_by_url r t :
  filter (fun x => (url x =? url r)%string) (insert_or_replace_urls r t) = [r].
Proof.
  unfold insert_or_replace_urls. rewrite filter_app. simpl.
  rewrite String.eqb_refl.
  replace (filter _ (filter _ t)) with (@nil urls_row); [reflexivity|].
  symmetry. induction t as [|x t IH]; simpl; [reflexivity|].
  destruct (urls_conflict x r) eqn:C; simpl; [exact IH|].
  unfold urls_conflict in C. apply orb_false_iff in C. destruct C as [_ C].
  rewrite C. exact IH.
Qed.

(** ... and the only one with its identifier. *)
Lemma insert_or_replace_by_md5 r t :
  filter (fun x => (url_md5 x =? url_md5 r)%string) (insert_or_replace_urls r t)
  = [r].
Proof.
  unfold insert_or_replace_urls. rewrite filter_app. simpl.
  rewrite String.eqb_refl.
  replace (filter _ (filter _ t)) with (@nil urls_row); [reflexivity|].
  symmetry. induction t as [|x t IH]; simpl; [reflexivity|].
  destruct (urls_conflict x r) eqn:C; simpl; [exact IH|].
  unfold urls_conflict in C. apply orb_false_iff in C. destruct C as [C _].
  rewrite C. exact IH.
Qed.

(** Deleting rows keeps a column free of duplicates. *)
Lemma NoDup_map_filter {Row Key} (key : Row -> Key) (keep : Row -> bool)
      (rows : list Row) (ND : NoDup (map key rows)) :
  NoDup (map key (filter keep rows)).
Proof.
  revert ND. induction rows as [|x rows IH]; simpl; intros ND; [constructor|].
  inversion ND as [|? ? Hx ND']; subst.
  destruct (keep x); simpl; [|apply IH, ND'].
  constructor; [|apply IH, ND'].
  intros Hin. apply Hx. apply in_map_iff in Hin. destruct Hin as [y [Hy Hin]].
  apply filter_In in Hin. rewrite <- Hy. apply in_map. tauto.
Qed.

Lemma insert_or_replace_unique r t :
  NoDup (map url_md5 t) /\ NoDup (map url t) ->
  NoDup (map url_md5 (insert_or_replace_urls r t))
  /\ NoDup (map url (insert_or_replace_urls r t)).
Proof.
  intros [N1 N2]. unfold insert_or_replace_urls. rewrite !map_app. simpl.
  split; apply NoDup_snoc; try (apply NoDup_map_filter; assumption);
    intros Hin; apply in_map_iff in Hin; destruct Hin as [x [Hx Hin]];
    apply filter_In in Hin; destruct Hin as [_ C];
    apply negb_true_iff in C; unfold urls_conflict in C;
    apply orb_false_iff in C; destruct C as [C1 C2];
    [apply String.eqb_neq in C1 | apply String.eqb_neq in C2]; congruence.
Qed.

Lemma InsertUrl_unique (HashMd5String : string -> string) db row :
  urls_unique db -> urls_unique (InsertUrl HashMd5String db row).
Proof. unfold urls_unique, InsertUrl. simpl. apply insert_or_replace_unique. Qed.

Lemma two_pages_unique : urls_unique Sample.two_pages.
Proof. do 2 apply InsertUrl_unique. split; constructor. Qed.

End UrlFacts.

(** C5.  [InsertUrl] is idempotent: a second call with the same row leaves
    the database as the first call left it.  After a call exactly one row
    holds the URL of the written row, and a table with one row per URL (and
    per identifier) keeps that shape. *)
Theorem InsertUrl_idempotent
        (HashMd5String : string -> string)
        (db : persistence.DB) (row : types.UrlRow.t) :
  persistence.InsertUrl HashMd5String
    (persistence.InsertUrl HashMd5String db row) row
  = persistence.InsertUrl HashMd5String db row
  /\ List.length (persistence.urls_for
                    (persistence.InsertUrl HashMd5String db row)
                    (types.UrlRow.Url row)) = 1%nat
  /\ (persistence.urls_unique db ->
      persistence.urls_unique (persistence.InsertUrl HashMd5String db row)).
Proof.
  unfold persistence.InsertUrl, persistence.urls_for, persistence.urls_unique.
  simpl. split; [|split].
  - rewrite insert_or_replace_twice. reflexivity.
  - rewrite (insert_or_replace_by_url
               {| persistence.url_md5 := HashMd5String (types.UrlRow.Url row);
                  persistence.url := types.UrlRow.Url row;
                  persistence.title := types.UrlRow.Title row;
                  persistence.description := types.UrlRow.Description row;
                  persistence.last_visit := persistence.lastVisit_of row |}).
    reflexivity.
  - apply insert_or_replace_unique.
Qed.

(** C5, at a concrete input: a.example is written again into a store that
    holds b.example and a.example. *)
Lemma InsertUrl_idempotent_witness :
  persistence.urls_unique
    (persistence.InsertUrl Sample.hash Sample.two_pages
       (Sample.page Sample.a_example (Some "A again") None)).
Proof.
  apply (InsertUrl_idempotent Sample.hash Sample.two_pages
           (Sample.page Sample.a_example (Some "A again") None)).
  exact two_pages_unique.
Defined.

(** C3 (as amended).  After [InsertUrl] the one row stored for the URL
    carries the [LastVisit] of the written row in Unix seconds, 0 when the
    row has none, whatever was stored before: the last writer wins. *)
Theorem InsertUrl_last_visit_is_the_written_one
        (HashMd5String : string -> string)
        (db : persistence.DB) (row : types.UrlRow.t) :
  map persistence.last_visit
      (persistence.urls_for (persistence.InsertUrl HashMd5String db row)
                            (types.UrlRow.Url row))
  = [persistence.lastVisit_of row].
Proof.
  unfold persistence.InsertUrl, persistence.urls_for. simpl.
  rewrite (insert_or_replace_by_url
             {| persistence.url_md5 := HashMd5String (types.UrlRow.Url row);
                persistence.url := types.UrlRow.Url row;
                persistence.title := types.UrlRow.Title row;
                persistence.description := types.UrlRow.Description row;
                persistence.last_visit := persistence.lastVisit_of row |}).
  reflexivity.
Qed.

(** C3 as stated fails: b.example is stored with last visit 200; writing
    it again with an older visit, or with none, moves [last_visit] back. *)
Lemma InsertUrl_last_visit_regresses :
  map persistence.last_visit
      (persistence.urls_for Sample.two_pages Sample.b_example) = [200]
  /\ map persistence.last_visit
       (persistence.urls_for
          (persistence.InsertUrl Sample.hash Sample.two_pages
             (Sample.page Sample.b_example (Some "B")
                          (Some (time.mkTime 100 0))))
          Sample.b_example) = [100]
  /\ map persistence.last_visit
       (persistence.urls_for
          (persistence.InsertUrl Sample.hash Sample.two_pages
             (Sample.page Sample.b_example (Some "B") None))
          Sample.b_example) = [0]
  /\ ~ (forall db row r r',
          In r (persistence.urls_for db (types.UrlRow.Url row)) ->
          In r' (persistence.urls_for
                   (persistence.InsertUrl Sample.hash db row)
                   (types.UrlRow.Url row)) ->
          persistence.last_visit r <= persistence.last_visit r').
Proof.
  repeat split; try reflexivity.
  intros H.
  specialize (H Sample.two_pages
                (Sample.page Sample.b_example (Some "B")
                             (Some (time.mkTime 100 0)))).
  cbv in H.
  specialize (H _ _ (or_introl eq_refl) (or_introl eq_refl)).
  apply H. reflexivity.
Qed.

(** ** Reading URLs back by identifier *)
Section LookupFacts.
Import persistence.

Lemma mem_string_In s l : mem_string s l = true <-> In s l.
Proof.
  unfold mem_string. rewrite existsb_exists. split.
  - intros [x [Hin E]]. apply String.eqb_eq in E. subst. exact Hin.
  - intros Hin. exists s. split; [exact Hin | apply String.eqb_refl].
Qed.

(** The index order is an order of the same rows. *)
Lemma insert_by_md5_perm r l : Permutation (insert_by_md5 r l) (r :: l).
Proof.
  induction l as [|x l IH]; simpl; [apply Permutation_refl|].
  destruct (String.leb (url_md5 r) (url_md5 x)); [apply Permutation_refl|].
  apply perm_trans with (x :: r :: l); [apply perm_skip, IH | apply perm_swap].
Qed.

Lemma by_md5_perm l : Permutation (by_md5 l) l.
Proof.
  induction l as [|x l IH]; simpl; [apply perm_nil|].
  apply perm_trans with (x :: by_md5 l);
    [apply insert_by_md5_perm | apply perm_skip, IH].
Qed.

Lemma insert_by_md5_sorted r l :
  Sorted md5_le l -> Sorted md5_le (insert_by_md5 r l).
Proof.
  induction l as [|x l IH]; simpl; intros S; [repeat constructor|].
  destruct (String.leb (url_md5 r) (url_md5 x)) eqn:E.
  - constructor; [exact S|]. constructor. exact E.
  - inversion S as [|? ? S' Hd]; subst. constructor; [apply IH, S'|].
    assert (Hxr : md5_le x r).
    { unfold md5_le. destruct (String.leb_total (url_md5 x) (url_md5 r));
        [assumption | congruence]. }
    destruct l as [|y l]; simpl; [constructor; exact Hxr|].
    destruct (String.leb (url_md5 r) (url_md5 y)); constructor;
      [exact Hxr|]. inversion Hd; subst. assumption.
Qed.

Lemma by_md5_sorted l : Sorted md5_le (by_md5 l).
Proof.
  induction l as [|x l IH]; simpl; [constructor|].
  apply insert_by_md5_sorted, IH.
Qed.

Lemma scan_url_sorted l : Sorted md5_le l -> Sorted UrlMd5_le (map scan_url l).
Proof.
  induction 1 as [|x l S IH Hd]; simpl; constructor; [exact IH|].
  destruct Hd; simpl; constructor. assumption.
Qed.

(** Within the engine's bound the query answers; beyond it, it fails. *)
Lemma UrlsById_within db ids :
  Z.of_nat (List.length ids) <= max_variables ->
  UrlsById db ids
  = Ok (map scan_url
          (by_md5 (filter (fun r => mem_string (url_md5 r) ids) (urls db)))).
Proof.
  intros Hle. unfold UrlsById.
  destruct (max_variables <? Z.of_nat (List.length ids)) eqn:E;
    [apply Z.ltb_lt in E; lia | reflexivity].
Qed.

Lemma UrlsById_beyond db ids :
  max_variables < Z.of_nat (List.length ids) ->
  UrlsById db ids = Err too_many_variables.
Proof.
  intros Hlt. unfold UrlsById. apply Z.ltb_lt in Hlt. rewrite Hlt. reflexivity.
Qed.

(** Only the set of requested identifiers matters, not their order or
    multiplicity, as long as the statement can hold them. *)
Lemma UrlsById_same_ids db ids ids' :
  Z.of_nat (List.length ids) <= max_variables ->
  Z.of_nat (List.length ids') <= max_variables ->
  (forall i, In i ids <-> In i ids') ->
  UrlsById db ids = UrlsById db ids'.
Proof.
  intros H H' Hset. rewrite !UrlsById_within by assumption.
  do 3 f_equal. apply filter_ext. intros r.
  apply eq_true_iff_eq. rewrite !mem_string_In. apply Hset.
Qed.

Lemma UrlsById_single db i :
  UrlsById db [i]
  = Ok (map scan_url
          (by_md5 (filter (fun r => (url_md5 r =? i)%string) (urls db)))).
Proof.
  rewrite UrlsById_within by (unfold max_variables; simpl; lia).
  do 3 f_equal. apply filter_ext. intros r.
  unfold mem_string. simpl. rewrite orb_false_r. apply String.eqb_sym.
Qed.

End LookupFacts.

(** C10.  [InsertUrl] stores an absent [LastVisit] as the integer 0 and
    [UrlsById] reads a stored 0 back as an absent [LastVisit]: after
    writing a row, the lookup of its identifier returns one record, whose
    [LastVisit] is absent exactly when the stored integer is 0.  That is
    the case when the row had no [LastVisit] and also when its visit was in
    the second of the Unix epoch, so the two cannot be told apart. *)
Theorem InsertUrl_then_UrlsById_last_visit
        (HashMd5String : string -> string)
        (db : persistence.DB) (row : types.UrlRow.t) :
  let db' := persistence.InsertUrl HashMd5String db row in
  let md5 := HashMd5String (types.UrlRow.Url row) in
  exists r,
    filter (fun x => (persistence.url_md5 x =? md5)%string) (persistence.urls db')
    = [r]
    /\ persistence.url r = types.UrlRow.Url row
    /\ persistence.last_visit r = persistence.lastVisit_of row
    /\ persistence.UrlsById db' [md5] = Ok [persistence.scan_url r]
    /\ (types.UrlDbEntity.LastVisit (persistence.scan_url r) = None
        <-> persistence.last_visit r = 0)
    /\ (persistence.last_visit r = 0
        <-> types.UrlRow.LastVisit row = None
            \/ exists t, types.UrlRow.LastVisit row = Some t /\ time.Unix t = 0)
    /\ (persistence.last_visit r <> 0 ->
        types.UrlDbEntity.LastVisit (persistence.scan_url r)
        = Some (time.time_Unix (persistence.last_visit r) 0)).
Proof.
  intros db' md5.
  set (r := {| persistence.url_md5 := md5;
               persistence.url := types.UrlRow.Url row;
               persistence.title := types.UrlRow.Title row;
               persistence.description := types.UrlRow.Description row;
               persistence.last_visit := persistence.lastVisit_of row |}).
  assert (Hrows : filter (fun x => (persistence.url_md5 x =? md5)%string)
                         (persistence.urls db') = [r])
    by apply (insert_or_replace_by_md5 r).
  exists r. split; [exact Hrows|]. split; [reflexivity|]. split; [reflexivity|].
  split; [rewrite UrlsById_single, Hrows; reflexivity|].
  unfold persistence.scan_url. simpl.
  split; [|split].
  - destruct (persistence.lastVisit_of row =? 0) eqn:E.
    + apply Z.eqb_eq in E. tauto.
    + apply Z.eqb_neq in E. split; [discriminate | contradiction].
  - unfold persistence.lastVisit_of.
    destruct (types.UrlRow.LastVisit row) as [t|].
    + split.
      * intros H0. right. exists t. auto.
      * intros [H | [t' [[= <-] H0]]]; [discriminate | exact H0].
    + split; [intros _; left; reflexivity | reflexivity].
  - intros Hne. apply Z.eqb_neq in Hne. rewrite Hne. reflexivity.
Qed.

(** C10, at a concrete input: a page visited in the very second of the
    Unix epoch is read back like a page that was never visited. *)
Lemma InsertUrl_then_UrlsById_last_visit_witness :
  let visited := Sample.page Sample.a_example None (Some (time.mkTime 0 0)) in
  let never := Sample.page Sample.a_example None None in
  persistence.UrlsById
    (persistence.InsertUrl Sample.hash persistence.empty_db visited)
    [Sample.hash Sample.a_example]
  = persistence.UrlsById
      (persistence.InsertUrl Sample.hash persistence.empty_db never)
      [Sample.hash Sample.a_example]
  /\ map types.UrlDbEntity.LastVisit
       (persistence.returned
          (persistence.UrlsById
             (persistence.InsertUrl Sample.hash persistence.empty_db visited)
             [Sample.hash Sample.a_example])) = [None].
Proof.
  intros visited never.
  destruct (InsertUrl_then_UrlsById_last_visit Sample.hash
              persistence.empty_db visited)
    as [r [_ [_ [Hlv [Hread [Habsent [Hzero _]]]]]]].
  assert (H0 : persistence.last_visit r = 0).
  { apply Hzero. right. exists (time.mkTime 0 0). split; reflexivity. }
  split; [reflexivity|].
  change (Sample.hash (types.UrlRow.Url visited))
    with (Sample.hash Sample.a_example) in Hread.
  rewrite Hread. simpl. f_equal. apply Habsent. exact H0.
Defined.




(** ** The search gateway *)




(** ** Extractor discovery *)
Section DiscoveryFacts.
Import extractors.

Variable Stat : string -> result FileInfo.

(** The log does not steer the loop. *)
Lemma discover_result_any_log specs found out out' :
  fst (discover Stat specs found out) = fst (discover Stat specs found out').
Proof.
  revert found out out'.
  induction specs as [|x rest IH]; intros found out out'; simpl; [reflexivity|].
  destruct (valid_dir Stat (path x)); simpl.
  - destruct (findDBs x (path x)); [apply IH | reflexivity].
  - apply IH.
Qed.

(** A location that is absent, or not a directory, is passed over. *)
Lemma discover_skips_invalid x rest found out :
  valid_dir Stat (path x) = false ->
  discover Stat (x :: rest) found out
  = discover Stat rest found
      (out ++ [Log ("Skipping invalid path: " ++ path x)])%list.
Proof. intros H. simpl. rewrite H. reflexivity. Qed.

Lemma discover_all_invalid specs found out :
  (forall x, In x specs -> valid_dir Stat (path x) = false) ->
  discover Stat specs found out
  = (Ok found,
     (out ++ map (fun x => Log ("Skipping invalid path: " ++ path x)) specs)%list).
Proof.
  revert out. induction specs as [|x rest IH]; intros out Hall; simpl.
  - rewrite app_nil_r. reflexivity.
  - rewrite (Hall x (or_introl eq_refl)). simpl.
    rewrite IH by (intros y Hy; apply Hall; right; exact Hy).
    rewrite <- app_assoc. reflexivity.
Qed.

(** An error of the loop is the error of the search step of a usable
    location. *)
Lemma discover_error specs found out e :
  fst (discover Stat specs found out) = Err e ->
  exists x, In x specs /\ valid_dir Stat (path x) = true
            /\ findDBs x (path x) = Err e.
Proof.
  revert found out.
  induction specs as [|x rest IH]; intros found out; simpl; [discriminate|].
  destruct (valid_dir Stat (path x)) eqn:V; simpl.
  - destruct (findDBs x (path x)) as [dbs|e'] eqn:F.
    + intros H. destruct (IH _ _ H) as [y [Hy Hrest]]. exists y. tauto.
    + simpl. intros [= ->]. exists x. auto.
  - intros H. destruct (IH _ _ H) as [y [Hy Hrest]]. exists y. tauto.
Qed.

Lemma discover_no_error specs found out :
  (forall x, In x specs -> valid_dir Stat (path x) = true ->
             is_err (findDBs x (path x)) = false) ->
  is_err (fst (discover Stat specs found out)) = false.
Proof.
  intros Hall.
  destruct (fst (discover Stat specs found out)) as [l|e] eqn:D; [reflexivity|].
  destruct (discover_error _ _ _ _ D) as [x [Hin [V F]]].
  specialize (Hall x Hin V). rewrite F in Hall. discriminate.
Qed.

(** A usable location whose search step fails makes the loop fail. *)
Lemma discover_fails specs found out x :
  In x specs -> valid_dir Stat (path x) = true ->
  is_err (findDBs x (path x)) = true ->
  is_err (fst (discover Stat specs found out)) = true.
Proof.
  revert found out. induction specs as [|y rest IH]; intros found out;
    [intros []|].
  intros Hin V F. simpl.
  destruct (valid_dir Stat (path y)) eqn:Vy; simpl.
  - destruct (findDBs y (path y)) as [dbs|e] eqn:Fy; [|reflexivity].
    destruct Hin as [-> | Hin]; [rewrite Fy in F; discriminate|].
    apply IH; assumption.
  - destruct Hin as [-> | Hin]; [congruence|]. apply IH; assumption.
Qed.

(** The error of the loop is that of the first usable location whose
    search step fails. *)
Lemma discover_first_error pre x rest found out e :
  (forall y, In y pre ->
             valid_dir Stat (path y) = false
             \/ is_err (findDBs y (path y)) = false) ->
  valid_dir Stat (path x) = true ->
  findDBs x (path x) = Err e ->
  fst (discover Stat (pre ++ x :: rest) found out) = Err e.
Proof.
  revert found out. induction pre as [|y pre IH]; intros found out Hpre V F.
  - simpl. rewrite V, F. reflexivity.
  - simpl. assert (IH' := fun f o => IH f o
                                       (fun z Hz => Hpre z (or_intror Hz)) V F).
    destruct (valid_dir Stat (path y)) eqn:Vy; simpl; [|apply IH'].
    destruct (findDBs y (path y)) as [dbs|e'] eqn:Fy; [apply IH'|].
    destruct (Hpre y (or_introl eq_refl)) as [H | H]; [congruence|].
    rewrite Fy in H. discriminate.
Qed.

End DiscoveryFacts.

(** C6 (as amended).  Discovery does not fail because a location is
    absent: a location on which [os.Stat] fails, or that is not a
    directory, is logged and passed over, and when all four are like that
    the list is empty and there is no error.  Discovery fails exactly
    through the search step of a usable location: its error is the error
    of such a step, in the Firefox or the Safari location since the
    Chromium search never fails, and whenever the search step of a usable
    location fails, so does discovery.  The Safari search step fails
    exactly when [os.Stat] fails on History.db under the Safari directory;
    so with a usable Safari directory a History.db that cannot be found
    makes discovery fail, with that error unless the Firefox search
    failed before. *)
Theorem BuildExtractorList_fails_only_in_a_search_step
        (Expanduser : string -> string)
        (Stat : string -> result extractors.FileInfo)
        (WalkDir : string -> list (string * extractors.DirEntry))
        (FindFirefoxDBs : string -> result (list string)) :
  let specs := extractors.pathsToTry Expanduser Stat WalkDir FindFirefoxDBs in
  let run := extractors.BuildExtractorList Expanduser Stat WalkDir FindFirefoxDBs in
  let safari := Expanduser "~/Library/Safari/" in
  let firefox := Expanduser "~/Library/Application Support/Firefox/Profiles/" in
  ((forall x, In x specs ->
              extractors.valid_dir Stat (extractors.path x) = false) ->
   run = (Ok [],
          map (fun x => Log ("Skipping invalid path: " ++ extractors.path x))
              specs))
  /\ (forall x rest found out,
        extractors.valid_dir Stat (extractors.path x) = false ->
        extractors.discover Stat (x :: rest) found out
        = extractors.discover Stat rest found
            (out ++ [Log ("Skipping invalid path: " ++ extractors.path x)])%list)
  /\ (forall e, fst run = Err e ->
        exists x, In x specs
                  /\ extractors.valid_dir Stat (extractors.path x) = true
                  /\ extractors.findDBs x (extractors.path x) = Err e
                  /\ (extractors.name x = "firefox"
                      \/ extractors.name x = "safari"))
  /\ (forall x, In x specs ->
        extractors.valid_dir Stat (extractors.path x) = true ->
        is_err (extractors.findDBs x (extractors.path x)) = true ->
        is_err (fst run) = true)
  /\ (forall s e, extractors.findSafariDBs Stat s = Err e
                  <-> Stat (s ++ "History.db") = Err e)
  /\ (forall e,
        extractors.valid_dir Stat safari = true ->
        Stat (safari ++ "History.db") = Err e ->
        is_err (fst run) = true
        /\ (extractors.valid_dir Stat firefox = false
            \/ is_err (FindFirefoxDBs firefox) = false ->
            fst run = Err e)).
Proof.
  intros specs run safari firefox. split; [|split; [|split; [|split; [|split]]]].
  - intros Hall. unfold run, extractors.BuildExtractorList.
    exact (discover_all_invalid Stat specs [] [] Hall).
  - intros x rest found out. apply discover_skips_invalid.
  - intros e He.
    destruct (discover_error Stat _ _ _ _ He) as [x [Hin [V F]]].
    exists x. split; [exact Hin|]. split; [exact V|]. split; [exact F|].
    simpl in Hin.
    destruct Hin as [<- | [<- | [<- | [<- | []]]]]; simpl in *;
      try discriminate; auto.
  - intros x Hin V F. unfold run, extractors.BuildExtractorList.
    apply (discover_fails Stat specs [] [] x Hin V F).
  - intros s e. unfold extractors.findSafariDBs.
    destruct (Stat (s ++ "History.db")); split; congruence.
  - intros e V S.
    assert (F : extractors.findSafariDBs Stat safari = Err e)
      by (unfold extractors.findSafariDBs; rewrite S; reflexivity).
    split.
    + unfold run, extractors.BuildExtractorList.
      apply (discover_fails Stat specs [] []
               {| extractors.name := "safari"; extractors.path := safari;
                  extractors.findDBs := extractors.findSafariDBs Stat;
                  extractors.createExtractor := extractors.SafariExtractor |}).
      * right. right. right. left. reflexivity.
      * exact V.
      * simpl. rewrite F. reflexivity.
    + intros Hff. unfold run, extractors.BuildExtractorList.
      apply (discover_first_error Stat (firstn 3 specs)
               {| extractors.name := "safari"; extractors.path := safari;
                  extractors.findDBs := extractors.findSafariDBs Stat;
                  extractors.createExtractor := extractors.SafariExtractor |}
               [] [] [] e); [|exact V | exact F].
      intros y [<- | [<- | [<- | []]]]; simpl;
        [right; reflexivity | right; reflexivity | exact Hff].
Qed.

(** C6, at a concrete input: on a machine without any of the four
    locations discovery returns the empty list, with four log lines; on a
    machine with the Safari directory and no database in it discovery
    fails. *)
Lemma BuildExtractorList_fails_only_in_a_search_step_witness :
  fst (extractors.BuildExtractorList Sample.expanduser Sample.nothing_stat
         Sample.empty_walk Sample.no_firefox_dbs) = Ok []
  /\ List.length
       (snd (extractors.BuildExtractorList Sample.expanduser Sample.nothing_stat
               Sample.empty_walk Sample.no_firefox_dbs)) = 4%nat
  /\ is_err
       (fst (extractors.BuildExtractorList Sample.expanduser
               Sample.safari_dir_only Sample.empty_walk Sample.no_firefox_dbs))
     = true.
Proof.
  pose proof (BuildExtractorList_fails_only_in_a_search_step
                Sample.expanduser Sample.nothing_stat Sample.empty_walk
                Sample.no_firefox_dbs) as [Hall _].
  pose proof (BuildExtractorList_fails_only_in_a_search_step
                Sample.expanduser Sample.safari_dir_only Sample.empty_walk
                Sample.no_firefox_dbs) as [_ [_ [_ [_ [_ Hsafari]]]]].
  rewrite Hall by (intros x Hin; reflexivity).
  split; [reflexivity|]. split; [reflexivity|].
  apply (Hsafari
           "stat /Users/u/Library/Safari/History.db: no such file or directory");
    reflexivity.
Defined.

(** C6 as stated fails: the Safari directory exists, History.db in it
    does not, and discovery returns the error of [os.Stat] on the missing
    file. *)
Lemma BuildExtractorList_fails_on_missing_safari_db :
  extractors.valid_dir Sample.safari_dir_only "/Users/u/Library/Safari/" = true
  /\ Sample.safari_dir_only "/Users/u/Library/Safari/History.db"
     = Err "stat /Users/u/Library/Safari/History.db: no such file or directory"
  /\ fst (extractors.BuildExtractorList Sample.expanduser Sample.safari_dir_only
            Sample.empty_walk Sample.no_firefox_dbs)
     = Err "stat /Users/u/Library/Safari/History.db: no such file or directory".
Proof. repeat split. Qed.

(** ** The sync driver *)
Section DriverFacts.
Import persistence extractors cmd.

Variable PopulateAll : Extractor -> DB -> DB * option error.
Variable PopulateSinceTime : Extractor -> time.Time -> DB -> DB * option error.
Variable BuildIndex : DB -> DB * result Z.
Variable browserName : string.
Variable onlyLatest : bool.
Variable shouldBuildIndex : bool.

Local Abbreviation loop :=
  (populateLoop PopulateAll PopulateSinceTime browserName onlyLatest).
Local Abbreviation synced :=
  (sync PopulateAll PopulateSinceTime browserName onlyLatest).
Local Abbreviation skip := (skipped browserName).

(** The cursor lookup fails exactly for a source without stored visits. *)
Lemma GetLatestTime_no_rows db name :
  filter (fun r => (extractor_name r =? name)%string) (visits db) = [] ->
  GetLatestTime db name = Err ErrNoRows.
Proof. intros H. unfold GetLatestTime. rewrite H. reflexivity. Qed.

Lemma GetLatestTime_error db name e :
  GetLatestTime db name = Err e ->
  e = ErrNoRows
  /\ filter (fun r => (extractor_name r =? name)%string) (visits db) = [].
Proof.
  unfold GetLatestTime.
  destruct (filter _ (visits db)) as [|r l]; simpl.
  - intros [= <-]. auto.
  - destruct (max_list (map visit_time l)); discriminate.
Qed.

(** A loop that runs to its end over a prefix goes on with what follows. *)
Lemma populateLoop_app pre l db errs out db1 errs1 out1 :
  loop pre db errs out = Completed db1 errs1 out1 ->
  loop (pre ++ l) db errs out = loop l db1 errs1 out1.
Proof.
  revert db errs out.
  induction pre as [|x pre IH]; intros db errs out; simpl.
  - intros [= -> -> ->]. reflexivity.
  - destruct (skip x); [apply IH|].
    destruct (if onlyLatest then GetLatestTime db (GetName x)
              else Ok (time.time_Unix 0 0)) as [since|e]; [|discriminate].
    destruct (if onlyLatest then PopulateSinceTime x since db
              else PopulateAll x db) as [db' [e|]]; apply IH.
Qed.

Lemma populateLoop_synced xs db l db' :
  synced xs db l db' ->
  forall errs out,
    loop xs db errs out = Completed db' (errs ++ flat_map collected l) out.
Proof.
  induction 1 as [db | x rest db l db' Hs _ IH
                  | x rest db db1 err l db' Hs Hm Hp _ IH
                  | x rest db since db1 err l db' Hs Hm Hg Hp _ IH];
    intros errs out; simpl.
  - rewrite app_nil_r. reflexivity.
  - rewrite Hs. apply IH.
  - rewrite Hs. rewrite Hm in IH |- *. cbn iota. rewrite Hp.
    destruct err as [e|]; cbn iota beta; rewrite IH; unfold collected; simpl.
    + rewrite <- app_assoc. reflexivity.
    + reflexivity.
  - rewrite Hs. rewrite Hm in IH |- *. cbn iota. rewrite Hg, Hp.
    destruct err as [e|]; cbn iota beta; rewrite IH; unfold collected; simpl.
    + rewrite <- app_assoc. reflexivity.
    + reflexivity.
Qed.

Lemma synced_attempts_all xs db l db' :
  synced xs db l db' -> map fst l = filter (fun x => negb (skip x)) xs.
Proof.
  induction 1 as [db | x rest db l db' Hs _ IH
                  | x rest db db1 err l db' Hs Hm Hp _ IH
                  | x rest db since db1 err l db' Hs Hm Hg Hp _ IH];
    simpl; try rewrite Hs; simpl; congruence.
Qed.

(** A full import cannot be cut short. *)
Lemma full_run_synced xs :
  onlyLatest = false -> forall db, exists l db', synced xs db l db'.
Proof.
  intros Hm. induction xs as [|x rest IH]; intros db.
  - exists [], db. constructor.
  - destruct (skip x) eqn:Hs.
    + destruct (IH db) as [l [db' H]]. exists l, db'.
      apply sync_skip; assumption.
    + destruct (PopulateAll x db) as [db1 err] eqn:Hp.
      destruct (IH db1) as [l [db' H]]. exists ((x, err) :: l), db'.
      eapply sync_full; eassumption.
Qed.

Lemma collected_none l : failed l = [] <-> flat_map collected l = [].
Proof.
  unfold failed. induction l as [|[x [e|]] l IH]; simpl.
  - tauto.
  - split; discriminate.
  - exact IH.
Qed.

Lemma collected_names l x e :
  In (x, Some e) l -> In (Wrap e (GetName x ++ " error:")) (flat_map collected l).
Proof.
  intros Hin. apply in_flat_map. exists (x, Some e). split; [exact Hin|].
  left. reflexivity.
Qed.

Lemma failed_In l x : In x (failed l) <-> exists e, In (x, Some e) l.
Proof.
  unfold failed. rewrite in_map_iff. split.
  - intros [[y [e|]] [Hy Hin]]; apply filter_In in Hin; destruct Hin as [Hin Hb];
      simpl in *; [subst; eauto | discriminate].
  - intros [e Hin]. exists (x, Some e). split; [reflexivity|].
    apply filter_In. auto.
Qed.

End DriverFacts.

(** C2 (as amended).  In an incremental run the driver reaches, after the
    sources of [pre], a source that is not skipped and has no stored
    visit.  [GetLatestTime] fails for it with [sql.ErrNoRows], and the
    driver does not fall back to a full import: it prints the error and
    exits with status 1, leaving the store as the earlier sources left it;
    neither this source nor a later one is imported. *)
Theorem incremental_run_exits_without_history
        (PopulateAll : extractors.Extractor -> persistence.DB
                       -> persistence.DB * option error)
        (PopulateSinceTime : extractors.Extractor -> time.Time -> persistence.DB
                             -> persistence.DB * option error)
        (BuildIndex : persistence.DB -> persistence.DB * result Z)
        (browserName : string) (shouldBuildIndex : bool)
        (pre : list extractors.Extractor) (x : extractors.Extractor)
        (rest : list extractors.Extractor)
        (db db1 : persistence.DB) (errs1 : list error) (out1 : list Output) :
  cmd.populateLoop PopulateAll PopulateSinceTime browserName true pre db [] []
  = cmd.Completed db1 errs1 out1 ->
  cmd.skipped browserName x = false ->
  filter (fun r => (persistence.extractor_name r =? extractors.GetName x)%string)
         (persistence.visits db1) = [] ->
  let line := Print ("could not get latest time " ++ persistence.ErrNoRows) in
  persistence.GetLatestTime db1 (extractors.GetName x)
  = Err persistence.ErrNoRows
  /\ cmd.populateLoop PopulateAll PopulateSinceTime browserName true
       (pre ++ x :: rest)%list db [] []
     = cmd.Exited 1 db1 (out1 ++ [line])%list
  /\ cmd.Run PopulateAll PopulateSinceTime BuildIndex browserName true
       shouldBuildIndex (Ok (pre ++ x :: rest)%list) (Ok db)
     = {| cmd.status := 1; cmd.store := Some db1;
          cmd.output := (out1 ++ [line])%list |}.
Proof.
  intros Hpre Hs Hnone line.
  pose proof (GetLatestTime_no_rows _ _ Hnone) as Hg.
  assert (Hloop : cmd.populateLoop PopulateAll PopulateSinceTime browserName
                    true (pre ++ x :: rest)%list db [] []
                  = cmd.Exited 1 db1 (out1 ++ [line])%list).
  { rewrite (populateLoop_app _ _ _ _ _ (x :: rest) _ _ _ _ _ _ Hpre).
    simpl. rewrite Hs, Hg. reflexivity. }
  split; [exact Hg|]. split; [exact Hloop|].
  unfold cmd.Run. rewrite Hloop. reflexivity.
Qed.

(** C2, at a concrete input: chrome has a stored visit, safari has none;
    an incremental run over safari alone exits with status 1. *)
Lemma incremental_run_exits_without_history_witness :
  cmd.status
    (cmd.Run Sample.import_all Sample.import_since Sample.index_ok "" true true
             (Ok [Sample.safari]) (Ok Sample.chrome_visited)) = 1
  /\ cmd.store
       (cmd.Run Sample.import_all Sample.import_since Sample.index_ok "" true true
                (Ok [Sample.safari]) (Ok Sample.chrome_visited))
     = Some Sample.chrome_visited.
Proof.
  destruct (incremental_run_exits_without_history
              Sample.import_all Sample.import_since Sample.index_ok "" true
              [] Sample.safari [] Sample.chrome_visited Sample.chrome_visited
              [] [] eq_refl eq_refl eq_refl) as [_ [_ Hrun]].
  simpl app in Hrun. rewrite Hrun. split; reflexivity.
Defined.

(** C2 as stated fails: on a fresh store an incremental run over safari
    does not import anything, although the import since the epoch would
    have stored a visit; the loop exits instead of running to its end. *)
Lemma incremental_run_does_not_fall_back :
  persistence.GetLatestTime persistence.empty_db "safari"
  = Err persistence.ErrNoRows
  /\ cmd.Run Sample.import_all Sample.import_since Sample.index_ok "" true true
             (Ok [Sample.safari]) (Ok persistence.empty_db)
     = {| cmd.status := 1; cmd.store := Some persistence.empty_db;
          cmd.output :=
            [Print "could not get latest time sql: no rows in result set"] |}
  /\ List.length (persistence.visits
       (fst (Sample.import_since Sample.safari (time.time_Unix 0 0)
                                 persistence.empty_db))) = 1%nat
  /\ ~ (exists db' errs out,
          cmd.populateLoop Sample.import_all Sample.import_since "" true
                           [Sample.safari] persistence.empty_db [] []
          = cmd.Completed db' errs out).
Proof.
  repeat split. intros [db' [errs [out H]]]. discriminate.
Qed.

(** C7 (as amended).  A full import always runs to the end of the list,
    and so does an incremental one whose cursor lookups all succeed
    ([sync]).  Such a run attempts every source that is not skipped, in
    order, whatever the earlier imports returned; it collects one error
    per failed import, whose message starts with the name of the source.
    When a source failed, every collected error is logged, followed by the
    line of the aggregate error, and the status is 1.  When none failed,
    the status is 0 unless the index build is enabled and fails. *)
Theorem sync_collects_failures_and_reports_them
        (PopulateAll : extractors.Extractor -> persistence.DB
                       -> persistence.DB * option error)
        (PopulateSinceTime : extractors.Extractor -> time.Time -> persistence.DB
                             -> persistence.DB * option error)
        (BuildIndex : persistence.DB -> persistence.DB * result Z)
        (browserName : string) (onlyLatest shouldBuildIndex : bool)
        (xs : list extractors.Extractor) (db : persistence.DB) :
  (onlyLatest = false ->
   exists l db',
     cmd.sync PopulateAll PopulateSinceTime browserName onlyLatest xs db l db')
  /\ forall l db',
       cmd.sync PopulateAll PopulateSinceTime browserName onlyLatest xs db l db' ->
       let r := cmd.Run PopulateAll PopulateSinceTime BuildIndex browserName
                        onlyLatest shouldBuildIndex (Ok xs) (Ok db) in
       map fst l = filter (fun x => negb (cmd.skipped browserName x)) xs
       /\ (forall errs out,
             cmd.populateLoop PopulateAll PopulateSinceTime browserName
                              onlyLatest xs db errs out
             = cmd.Completed db' (errs ++ flat_map cmd.collected l) out)
       /\ (cmd.failed l <> [] ->
           cmd.status r = 1
           /\ cmd.store r = Some db'
           /\ cmd.output r
              = (map Log (flat_map cmd.collected l)
                 ++ [Print "Encountered an error one or more browsers failed"])%list)
       /\ (forall x e,
             In (x, Some e) l ->
             In (Log (Wrap e (extractors.GetName x ++ " error:")))
                (cmd.output r))
       /\ (cmd.failed l = [] ->
           (cmd.status r = 0
            <-> shouldBuildIndex = false
                \/ is_err (snd (BuildIndex db')) = false)
           /\ (cmd.status r = 0 \/ cmd.status r = 1)).
Proof.
  split; [intros Hm; apply full_run_synced; exact Hm|].
  intros l db' Hsync r.
  pose proof (populateLoop_synced _ _ _ _ _ _ _ _ Hsync) as Hloop.
  assert (Hfail : cmd.failed l <> [] ->
            cmd.status r = 1 /\ cmd.store r = Some db'
            /\ cmd.output r
               = (map Log (flat_map cmd.collected l)
                  ++ [Print "Encountered an error one or more browsers failed"])%list).
  { intros Hne. unfold r, cmd.Run. rewrite Hloop. simpl.
    destruct (flat_map cmd.collected l) as [|e es] eqn:C.
    - exfalso. apply Hne. apply collected_none. exact C.
    - simpl List.length. rewrite Nat2Z.inj_succ.
      replace (0 <? Z.succ (Z.of_nat (List.length es))) with true
        by (symmetry; apply Z.ltb_lt; lia).
      simpl. auto. }
  split; [eapply synced_attempts_all; exact Hsync|].
  split; [exact Hloop|]. split; [exact Hfail|]. split.
  - intros x e Hin.
    assert (Hne : cmd.failed l <> []).
    { intros Hnil. assert (Hx : In x (cmd.failed l))
        by (apply failed_In; exists e; exact Hin).
      rewrite Hnil in Hx. exact Hx. }
    destruct (Hfail Hne) as [_ [_ Hout]]. rewrite Hout.
    apply in_or_app. left. apply in_map. apply collected_names. exact Hin.
  - intros Hnil. apply collected_none in Hnil.
    unfold r, cmd.Run. rewrite Hloop, Hnil. simpl.
    destruct shouldBuildIndex.
    + destruct (BuildIndex db') as [db'' [n|e]]; simpl.
      * split; [|left; reflexivity]. split; [intros _; right|]; reflexivity.
      * split; [|right; reflexivity].
        split; [discriminate | intros [H | H]; discriminate].
    + simpl. split; [|left; reflexivity].
      split; [intros _; left|]; reflexivity.
Qed.

(** C7, at a concrete input: a full import over chrome, whose database is
    unreadable, and safari: safari is imported after chrome failed, the
    failure of chrome is logged under its name and the status is 1. *)
Lemma sync_collects_failures_and_reports_them_witness :
  let r := cmd.Run Sample.import_all Sample.import_since Sample.index_ok
                   "" false true (Ok [Sample.chrome; Sample.safari])
                   (Ok persistence.empty_db) in
  cmd.status r = 1
  /\ In (Log "chrome error:: unable to open database file") (cmd.output r)
  /\ option_map (fun d => List.length (persistence.visits d)) (cmd.store r)
     = Some 1%nat.
Proof.
  intros r.
  destruct (sync_collects_failures_and_reports_them
              Sample.import_all Sample.import_since Sample.index_ok
              "" false true [Sample.chrome; Sample.safari] persistence.empty_db)
    as [_ Hrun].
  specialize (Hrun
    [(Sample.chrome, Some Sample.unreadable); (Sample.safari, None)]
    (fst (Sample.import_all Sample.safari persistence.empty_db))).
  assert (Hsync : cmd.sync Sample.import_all Sample.import_since "" false
                    [Sample.chrome; Sample.safari] persistence.empty_db
                    [(Sample.chrome, Some Sample.unreadable); (Sample.safari, None)]
                    (fst (Sample.import_all Sample.safari persistence.empty_db))).
  { eapply cmd.sync_full; [reflexivity | reflexivity | reflexivity |].
    eapply cmd.sync_full; [reflexivity | reflexivity | reflexivity |].
    apply cmd.sync_done. }
  destruct (Hrun Hsync) as [_ [_ [Hfail [Hnamed _]]]].
  assert (Hne : cmd.failed
                  [(Sample.chrome, Some Sample.unreadable); (Sample.safari, None)]
                <> []) by discriminate.
  destruct (Hfail Hne) as [Hst [Hdb _]].
  split; [exact Hst|]. split.
  - apply (Hnamed Sample.chrome Sample.unreadable). left. reflexivity.
  - fold r in Hdb. rewrite Hdb. reflexivity.
Defined.

(** C7 as stated fails.  In an incremental run chrome's import fails and
    is collected, then safari has no stored visit: the process exits at
    once and the failure of chrome is never reported.  And in a full run
    in which no source fails the status is still 1 when the index build
    fails. *)
Lemma sync_failure_report_can_be_lost :
  let r := cmd.Run Sample.import_all Sample.import_since Sample.index_ok
                   "" true true (Ok [Sample.chrome; Sample.safari])
                   (Ok Sample.chrome_visited) in
  let r' := cmd.Run Sample.import_all Sample.import_since Sample.index_broken
                    "" false true (Ok [Sample.safari])
                    (Ok persistence.empty_db) in
  persistence.GetLatestTime Sample.chrome_visited "chrome"
  = Ok (time.time_Unix 50 0)
  /\ snd (Sample.import_since Sample.chrome (time.time_Unix 50 0)
                              Sample.chrome_visited)
     = Some Sample.unreadable
  /\ cmd.status r = 1
  /\ cmd.output r
     = [Print "could not get latest time sql: no rows in result set"]
  /\ ~ In (Log (Wrap Sample.unreadable "chrome error:")) (cmd.output r)
  /\ snd (Sample.import_all Sample.safari persistence.empty_db) = None
  /\ cmd.status r' = 1.
Proof.
  repeat split. simpl. intros [H | []]. discriminate.
Qed.

(** * Further properties of the store *)

(** ** The incremental cursor *)
Section CursorFacts.
Import persistence.

Lemma max_list_none l : max_list l = None <-> l = [].
Proof.
  destruct l as [|x l]; simpl; [tauto|].
  destruct (max_list l); split; discriminate.
Qed.

Lemma max_list_some l m :
  max_list l = Some m -> In m l /\ (forall x, In x l -> x <= m).
Proof.
  revert m. induction l as [|x l IH]; simpl; intros m; [discriminate|].
  destruct (max_list l) as [m'|] eqn:E.
  - intros [= <-]. destruct (IH m' eq_refl) as [Hin Hle]. split.
    + destruct (Z.max_spec x m') as [[_ ->] | [_ ->]]; auto.
    + intros y [<- | Hy]; [lia|]. specialize (Hle y Hy). lia.
  - intros [= <-]. apply max_list_none in E. subst l. split; [auto|].
    intros y [<- | []]. lia.
Qed.

Lemma max_list_snoc l t :
  max_list (l ++ [t])
  = Some (match max_list l with Some m => Z.max m t | None => t end).
Proof.
  induction l as [|x l IH]; simpl; [reflexivity|].
  rewrite IH. destruct (max_list l) as [m|]; [rewrite Z.max_assoc|]; reflexivity.
Qed.

Lemma Unix_time_Unix s : time.Unix (time.time_Unix s 0) = s.
Proof.
  unfold time.Unix, time.time_Unix. cbn [time.sec].
  change (0 / 1000000000) with 0. apply Z.add_0_r.
Qed.

End CursorFacts.

(** X1.  [GetLatestTime] on a handle.  When the store behind the handle
    cannot be read the call fails with the error of the handle.  On a
    store that can be read it succeeds exactly when the extractor has a
    stored visit: it then returns a whole second, the greatest
    [visit_time] among the rows of that extractor, which is the time of
    one of them; otherwise the error is [sql.ErrNoRows] and no row carries
    the name. *)
Theorem GetLatestTime_returns_the_latest_visit
        (c : persistence.Conn) (name : string) :
  let db := persistence.data c in
  match persistence.GetLatestTime_on c name with
  | Ok t =>
      persistence.fault c = None
      /\ time.nsec t = 0
      /\ (exists r, In r (persistence.visits db)
                    /\ persistence.extractor_name r = name
                    /\ persistence.visit_time r = time.Unix t)
      /\ (forall r, In r (persistence.visits db) ->
                    persistence.extractor_name r = name ->
                    persistence.visit_time r <= time.Unix t)
  | Err e =>
      persistence.fault c = Some e
      \/ (persistence.fault c = None
          /\ e = persistence.ErrNoRows
          /\ (forall r, In r (persistence.visits db) ->
                        persistence.extractor_name r <> name))
  end.
Proof.
  intros db. unfold persistence.GetLatestTime_on, persistence.on_handle.
  destruct (persistence.fault c) as [f|]; [left; reflexivity|].
  unfold persistence.GetLatestTime. fold db.
  destruct (persistence.max_list _) as [ts|] eqn:E.
  - apply max_list_some in E. destruct E as [Hin Hmax].
    rewrite Unix_time_Unix. split; [reflexivity|]. split; [reflexivity|]. split.
    + apply in_map_iff in Hin. destruct Hin as [r [Ht Hr]].
      apply filter_In in Hr. destruct Hr as [Hr Hn].
      apply String.eqb_eq in Hn. exists r. auto.
    + intros r Hr Hn. apply Hmax. apply in_map. apply filter_In.
      split; [exact Hr|]. apply String.eqb_eq. exact Hn.
  - right. split; [reflexivity|]. split; [reflexivity|]. intros r Hr Hn.
    apply max_list_none in E. apply map_eq_nil in E.
    assert (Hin : In r (filter (fun r0 => (persistence.extractor_name r0 =? name)%string)
                               (persistence.visits db))).
    { apply filter_In. split; [exact Hr|]. apply String.eqb_eq. exact Hn. }
    rewrite E in Hin. exact Hin.
Qed.

(** X2.  How [InsertVisit] moves the cursor.  When no row holds the URL
    and second of the visit, the row is stored: the cursor of the visit's
    extractor becomes the later of its old value and the visit's second
    (the visit's second when it had none), and the cursor of every other
    extractor stays.  When a row holds them already, whoever wrote it, the
    rows stay as they are and so does every cursor: the visit is not
    credited to its extractor. *)
Theorem InsertVisit_moves_the_cursor
        (HashMd5String : string -> string)
        (db : persistence.DB) (v : types.VisitRow.t) :
  let t := time.Unix (types.VisitRow.Datetime v) in
  let name := types.VisitRow.ExtractorName v in
  let db' := persistence.InsertVisit HashMd5String db v in
  (persistence.visits_at db (HashMd5String (types.VisitRow.Url v)) t = [] ->
   persistence.GetLatestTime db' name
   = Ok (time.time_Unix
           (match persistence.GetLatestTime db name with
            | Ok old => Z.max (time.Unix old) t
            | Err _ => t
            end) 0)
   /\ (forall other, other <> name ->
         persistence.GetLatestTime db' other
         = persistence.GetLatestTime db other))
  /\ (persistence.visits_at db (HashMd5String (types.VisitRow.Url v)) t <> [] ->
      persistence.visits db' = persistence.visits db
      /\ (forall any, persistence.GetLatestTime db' any
                      = persistence.GetLatestTime db any)).
Proof.
  intros t name db'.
  set (m := HashMd5String (types.VisitRow.Url v)).
  set (r := {| persistence.id := persistence.visits_seq db + 1;
               persistence.v_url_md5 := m;
               persistence.visit_time := t;
               persistence.extractor_name := name |}).
  assert (Hex : existsb (fun x => persistence.visits_same_key x r)
                        (persistence.visits db) = true
                <-> persistence.visits_at db m t <> []).
  { rewrite existsb_exists. unfold persistence.visits_at. split.
    - intros [x [Hin Hk]] Hnil.
      assert (Hx : In x (filter (fun r0 => (persistence.v_url_md5 r0 =? m)%string
                                           && (persistence.visit_time r0 =? t)%Z)
                                (persistence.visits db)))
        by (apply filter_In; split; [exact Hin | exact Hk]).
      rewrite Hnil in Hx. exact Hx.
    - intros Hne. destruct (filter _ (persistence.visits db)) as [|x l] eqn:F;
        [contradiction|].
      assert (Hx : In x (filter (fun r0 => (persistence.v_url_md5 r0 =? m)%string
                                           && (persistence.visit_time r0 =? t)%Z)
                                (persistence.visits db)))
        by (rewrite F; left; reflexivity).
      apply filter_In in Hx. exists x. exact Hx. }
  assert (Hvis : persistence.visits db'
                 = if existsb (fun x => persistence.visits_same_key x r)
                              (persistence.visits db)
                   then persistence.visits db
                   else (persistence.visits db ++ [r])%list)
    by reflexivity.
  split.
  - intros Hnil.
    destruct (existsb (fun x => persistence.visits_same_key x r)
                      (persistence.visits db)) eqn:E.
    { exfalso. apply (proj1 Hex eq_refl). exact Hnil. }
    split.
    + unfold persistence.GetLatestTime. rewrite Hvis, filter_app, map_app.
      simpl. rewrite String.eqb_refl. simpl. rewrite max_list_snoc.
      destruct (persistence.max_list _) as [old|]; [|reflexivity].
      rewrite Unix_time_Unix. reflexivity.
    + intros other Hne. unfold persistence.GetLatestTime.
      rewrite Hvis, filter_app. simpl.
      destruct (name =? other)%string eqn:En;
        [apply String.eqb_eq in En; congruence|].
      rewrite app_nil_r. reflexivity.
  - intros Hne. apply Hex in Hne. rewrite Hne in Hvis.
    split; [exact Hvis|]. intros any. unfold persistence.GetLatestTime.
    rewrite Hvis. reflexivity.
Qed.

(** X2, at a concrete input: chrome has stored a visit of example.com at
    second 50; safari reports the same visit and still has no cursor. *)
Lemma InsertVisit_moves_the_cursor_witness :
  let v := Sample.visit Sample.example_com 50 0 "safari" in
  persistence.visits (persistence.InsertVisit Sample.hash Sample.chrome_visited v)
  = persistence.visits Sample.chrome_visited
  /\ persistence.GetLatestTime
       (persistence.InsertVisit Sample.hash Sample.chrome_visited v) "safari"
     = Err persistence.ErrNoRows.
Proof.
  intros v.
  destruct (InsertVisit_moves_the_cursor Sample.hash Sample.chrome_visited v)
    as [_ Hheld].
  assert (Hne : persistence.visits_at Sample.chrome_visited
                  (Sample.hash (types.VisitRow.Url v))
                  (time.Unix (types.VisitRow.Datetime v)) <> [])
    by discriminate.
  destruct (Hheld Hne) as [Hrows Hcur].
  split; [exact Hrows|]. rewrite Hcur. reflexivity.
Defined.

(** ** The shape of a store built by writes *)
Section ShapeFacts.
Import persistence writes.

Variable HashMd5String : string -> string.

Lemma StronglySorted_snoc (l : list Z) (a : Z) :
  StronglySorted Z.lt l -> (forall x, In x l -> x < a) ->
  StronglySorted Z.lt (l ++ [a]).
Proof.
  induction l as [|y l IH]; simpl; intros S Hlt.
  - repeat constructor.
  - inversion S as [|? ? S' Hy]; subst. constructor.
    + apply IH; [exact S'|]. intros x Hx. apply Hlt. right. exact Hx.
    + rewrite Forall_forall in *. intros x Hx. apply in_app_iff in Hx.
      destruct Hx as [Hx | [<- | []]]; [apply Hy, Hx|].
      apply Hlt. left. reflexivity.
Qed.

Lemma insert_or_ignore_ids md5 ts name db :
  ids_ascending db ->
  ids_ascending (insert_or_ignore_visits md5 ts name db).
Proof.
  intros [S [P B]]. unfold ids_ascending, insert_or_ignore_visits. simpl.
  destruct (existsb _ (visits db)).
  - split; [exact S|]. split; [lia|].
    intros r Hr. specialize (B r Hr). lia.
  - split; [|split; [lia|]].
    + rewrite map_app. simpl. apply StronglySorted_snoc; [exact S|].
      intros x Hx. apply in_map_iff in Hx. destruct Hx as [r [<- Hr]].
      specialize (B r Hr). lia.
    + intros r Hr. apply in_app_iff in Hr.
      destruct Hr as [Hr | [<- | []]]; [specialize (B r Hr); lia|].
      simpl. lia.
Qed.

Lemma InsertUrl_hashed db row :
  urls_hashed HashMd5String db ->
  urls_hashed HashMd5String (InsertUrl HashMd5String db row).
Proof.
  intros Hh r Hr. unfold InsertUrl, insert_or_replace_urls in Hr. simpl in Hr.
  apply in_app_iff in Hr. destruct Hr as [Hr | [<- | []]]; [|reflexivity].
  apply filter_In in Hr. apply Hh. tauto.
Qed.

End ShapeFacts.

(** X3.  Whatever sequence of [InsertUrl] and [InsertVisit] calls is made
    on a fresh database, the store keeps its shape: no two "urls" rows
    share a digest or a URL, every "urls" row is filed under the digest of
    its URL, no two "visits" rows share URL and second, and the visit ids
    are positive, grow along the table and never exceed the counter. *)
Theorem writes_keep_the_store_well_formed
        (HashMd5String : string -> string) (ws : list writes.write) :
  let db := writes.apply_writes HashMd5String persistence.empty_db ws in
  persistence.urls_unique db
  /\ writes.urls_hashed HashMd5String db
  /\ persistence.visits_unique db
  /\ writes.ids_ascending db.
Proof.
  set (inv := fun db =>
         persistence.urls_unique db
         /\ writes.urls_hashed HashMd5String db
         /\ persistence.visits_unique db
         /\ writes.ids_ascending db).
  assert (Hstep : forall l db, inv db ->
                    inv (writes.apply_writes HashMd5String db l)).
  { induction l as [|w l IH]; intros db Hdb; [exact Hdb|].
    apply IH. destruct Hdb as [U [Hh [V I]]].
    destruct w as [row|row]; simpl.
    - split; [apply InsertUrl_unique; exact U|].
      split; [apply InsertUrl_hashed; exact Hh|].
      split; [exact V | exact I].
    - split; [exact U|]. split; [exact Hh|].
      split; [apply insert_or_ignore_unique; exact V|].
      apply insert_or_ignore_ids. exact I. }
  apply Hstep. unfold inv. split; [split; constructor|].
  split; [intros r []|]. split; [constructor|].
  split; [constructor|]. split; [reflexivity|]. intros r [].
Qed.

(** ** Writing one URL and reading the others *)
Section NeighbourFacts.
Import persistence writes.

Variable HashMd5String : string -> string.

(** In a store filed by digest, the statement deletes, among the rows of
    another digest, nothing. *)
Lemma insert_or_replace_other_md5 r t i :
  (forall x, In x t -> url_md5 x = HashMd5String (url x)) ->
  url_md5 r = HashMd5String (url r) ->
  i <> url_md5 r ->
  filter (fun x => (url_md5 x =? i)%string) (insert_or_replace_urls r t)
  = filter (fun x => (url_md5 x =? i)%string) t.
Proof.
  intros Hh Hr Hne. unfold insert_or_replace_urls. rewrite filter_app. simpl.
  destruct (url_md5 r =? i)%string eqn:E;
    [apply String.eqb_eq in E; congruence|].
  rewrite app_nil_r. clear E.
  induction t as [|x t IH]; simpl; [reflexivity|].
  assert (IH' := IH (fun y Hy => Hh y (or_intror Hy))).
  destruct (urls_conflict x r) eqn:C; simpl.
  - destruct (url_md5 x =? i)%string eqn:E; [|exact IH'].
    exfalso. apply String.eqb_eq in E.
    unfold urls_conflict in C. apply orb_true_iff in C.
    destruct C as [C | C]; apply String.eqb_eq in C; [congruence|].
    pose proof (Hh x (or_introl eq_refl)) as Hx. congruence.
  - destruct (url_md5 x =? i)%string; [f_equal|]; exact IH'.
Qed.

(** Rows that conflict with a new row, in a store filed by digest where
    no stored URL collides with the new one: the rows of the same URL. *)
Lemma conflict_is_same_url r t :
  (forall x, In x t -> url_md5 x = HashMd5String (url x)) ->
  url_md5 r = HashMd5String (url r) ->
  (forall x, In x t -> HashMd5String (url x) = HashMd5String (url r) ->
             url x = url r) ->
  filter (fun x => negb (urls_conflict x r)) t
  = filter (fun x => negb (url x =? url r)%string) t.
Proof.
  intros Hh Hr Hc. apply filter_ext_in. intros x Hx. f_equal.
  unfold urls_conflict.
  destruct (url x =? url r)%string eqn:E; [apply orb_true_r|].
  rewrite orb_false_r. apply String.eqb_neq. apply String.eqb_neq in E.
  intros Hm. apply E. apply Hc; [exact Hx|].
  rewrite <- (Hh x Hx), <- Hr. exact Hm.
Qed.

Lemma filter_split_length {A} (p : A -> bool) (l : list A) :
  (List.length (filter p l) + List.length (filter (fun x => negb (p x)) l)
   = List.length l)%nat.
Proof.
  induction l as [|x l IH]; simpl; [reflexivity|].
  destruct (p x); simpl; lia.
Qed.

Lemma unique_url_at_most_one (t : list urls_row) u :
  NoDup (map url t) ->
  (List.length (filter (fun x => (url x =? u)%string) t) <= 1)%nat.
Proof.
  induction t as [|x t IH]; simpl; intros ND; [lia|].
  inversion ND as [|? ? Hx ND']; subst.
  destruct (url x =? u)%string eqn:E; [|apply IH, ND'].
  apply String.eqb_eq in E. simpl.
  destruct (filter _ t) as [|y l] eqn:F; [simpl; lia|].
  exfalso. apply Hx.
  assert (Hy : In y (filter (fun x0 => (url x0 =? u)%string) t))
    by (rewrite F; left; reflexivity).
  apply filter_In in Hy. destruct Hy as [Hy Hu]. apply String.eqb_eq in Hu.
  rewrite E, <- Hu. apply in_map. exact Hy.
Qed.

End NeighbourFacts.

(** X4.  In a store whose rows are filed under the digest of their URL,
    writing a URL changes the lookup of no other identifier: for every
    identifier other than the digest of the written URL, [UrlsById]
    returns after the write what it returned before. *)
Theorem InsertUrl_leaves_other_urls_alone
        (HashMd5String : string -> string)
        (db : persistence.DB) (row : types.UrlRow.t) (i : string) :
  writes.urls_hashed HashMd5String db ->
  i <> HashMd5String (types.UrlRow.Url row) ->
  persistence.UrlsById (persistence.InsertUrl HashMd5String db row) [i]
  = persistence.UrlsById db [i].
Proof.
  intros Hh Hne. rewrite !UrlsById_single. do 3 f_equal.
  unfold persistence.InsertUrl. simpl.
  apply (insert_or_replace_other_md5 HashMd5String); auto.
Qed.

(** X4, at a concrete input: rewriting a.example leaves the record of
    b.example as it was. *)
Lemma InsertUrl_leaves_other_urls_alone_witness :
  persistence.UrlsById
    (persistence.InsertUrl Sample.hash Sample.two_pages
       (Sample.page Sample.a_example (Some "A again") None))
    [Sample.hash Sample.b_example]
  = persistence.UrlsById Sample.two_pages [Sample.hash Sample.b_example].
Proof.
  apply (InsertUrl_leaves_other_urls_alone Sample.hash Sample.two_pages).
  - do 2 apply InsertUrl_hashed. intros r [].
  - discriminate.
Defined.

(** X5.  Round trip of a URL row: after [InsertUrl], the lookup of the
    digest of the URL returns exactly one record, with that digest, the
    URL, the title and the description of the written row (absent ones
    stay absent), and its last visit cut to the whole second, or absent
    when the row had none or its second is 0. *)
Theorem InsertUrl_then_UrlsById_round_trip
        (HashMd5String : string -> string)
        (db : persistence.DB) (row : types.UrlRow.t) :
  persistence.UrlsById (persistence.InsertUrl HashMd5String db row)
                       [HashMd5String (types.UrlRow.Url row)]
  = Ok [ {| types.UrlDbEntity.UrlMd5 := HashMd5String (types.UrlRow.Url row);
            types.UrlDbEntity.Url := types.UrlRow.Url row;
            types.UrlDbEntity.Title := types.UrlRow.Title row;
            types.UrlDbEntity.Description := types.UrlRow.Description row;
            types.UrlDbEntity.LastVisit :=
              match types.UrlRow.LastVisit row with
              | Some t => if time.Unix t =? 0 then None
                          else Some (time.mkTime (time.Unix t) 0)
              | None => None
              end |} ].
Proof.
  rewrite UrlsById_single. unfold persistence.InsertUrl. simpl.
  rewrite (insert_or_replace_by_md5
             {| persistence.url_md5 := HashMd5String (types.UrlRow.Url row);
                persistence.url := types.UrlRow.Url row;
                persistence.title := types.UrlRow.Title row;
                persistence.description := types.UrlRow.Description row;
                persistence.last_visit := persistence.lastVisit_of row |}).
  simpl. unfold persistence.scan_url, persistence.lastVisit_of. simpl.
  destruct (types.UrlRow.LastVisit row) as [t|]; [|reflexivity].
  destruct (time.Unix t =? 0); [reflexivity|].
  unfold time.time_Unix. change (0 / 1000000000) with 0.
  change (0 mod 1000000000) with 0. rewrite Z.add_0_r. reflexivity.
Qed.

(** X6.  The size of "urls" under [InsertUrl], in a store filed by digest
    in which no stored URL has the digest of a different written URL: a
    URL that is not stored yet adds one row, and in a store with one row
    per URL a URL that is stored already adds none. *)
Theorem InsertUrl_grows_the_table_by_new_urls_only
        (HashMd5String : string -> string)
        (db : persistence.DB) (row : types.UrlRow.t) :
  writes.urls_hashed HashMd5String db ->
  (forall x, In x (persistence.urls db) ->
             HashMd5String (persistence.url x)
             = HashMd5String (types.UrlRow.Url row) ->
             persistence.url x = types.UrlRow.Url row) ->
  let db' := persistence.InsertUrl HashMd5String db row in
  (persistence.urls_for db (types.UrlRow.Url row) = [] ->
   List.length (persistence.urls db') = S (List.length (persistence.urls db)))
  /\ (persistence.urls_unique db ->
      persistence.urls_for db (types.UrlRow.Url row) <> [] ->
      List.length (persistence.urls db') = List.length (persistence.urls db)).
Proof.
  intros Hh Hc db'.
  set (r := {| persistence.url_md5 := HashMd5String (types.UrlRow.Url row);
               persistence.url := types.UrlRow.Url row;
               persistence.title := types.UrlRow.Title row;
               persistence.description := types.UrlRow.Description row;
               persistence.last_visit := persistence.lastVisit_of row |}).
  assert (Hlen : (List.length (persistence.urls db')
                  + List.length (persistence.urls_for db (types.UrlRow.Url row))
                  = S (List.length (persistence.urls db)))%nat).
  { unfold db', persistence.InsertUrl, persistence.insert_or_replace_urls.
    simpl. fold r. rewrite length_app. simpl.
    rewrite (conflict_is_same_url HashMd5String r) by (auto; reflexivity).
    pose proof (filter_split_length
                  (fun x => (persistence.url x =? types.UrlRow.Url row)%string)
                  (persistence.urls db)) as Hs.
    unfold persistence.urls_for. simpl in *.
    set (gone := List.length
                   (filter (fun x => (persistence.url x =? types.UrlRow.Url row)%string)
                           (persistence.urls db))) in *.
    set (kept := List.length
                   (filter (fun x => negb (persistence.url x =? types.UrlRow.Url row)%string)
                           (persistence.urls db))) in *.
    lia. }
  split.
  - intros Hnil. rewrite Hnil, Nat.add_0_r in Hlen. exact Hlen.
  - intros [_ U] Hne.
    pose proof (unique_url_at_most_one (persistence.urls db)
                  (types.UrlRow.Url row) U) as Hle.
    fold (persistence.urls_for db (types.UrlRow.Url row)) in Hle.
    destruct (persistence.urls_for db (types.UrlRow.Url row)) as [|y [|z l]];
      [contradiction | | simpl in Hle; lia].
    change (List.length [y]) with 1%nat in Hlen.
    rewrite Nat.add_1_r in Hlen. injection Hlen as Hlen. exact Hlen.
Qed.

(** X6, at a concrete input: a third page makes three rows, a.example
    written again leaves two. *)
Lemma InsertUrl_grows_the_table_by_new_urls_only_witness :
  List.length (persistence.urls
     (persistence.InsertUrl Sample.hash Sample.two_pages
        (Sample.page Sample.example_com None None))) = 3%nat
  /\ List.length (persistence.urls
       (persistence.InsertUrl Sample.hash Sample.two_pages
          (Sample.page Sample.a_example (Some "A again") None))) = 2%nat.
Proof.
  assert (Hh : writes.urls_hashed Sample.hash Sample.two_pages)
    by (do 2 apply InsertUrl_hashed; intros r []).
  split.
  - apply (InsertUrl_grows_the_table_by_new_urls_only Sample.hash
             Sample.two_pages (Sample.page Sample.example_com None None) Hh).
    + intros x [<- | [<- | []]]; discriminate.
    + reflexivity.
  - apply (InsertUrl_grows_the_table_by_new_urls_only Sample.hash
             Sample.two_pages
             (Sample.page Sample.a_example (Some "A again") None) Hh).
    + intros x [<- | [<- | []]]; [discriminate | reflexivity].
    + exact two_pages_unique.
    + discriminate.
Defined.

(** X7.  In a store with one row per digest, [UrlsById] never returns
    more records than identifiers were requested; it returns fewer when
    an identifier is unknown or requested more than once, and none when
    it fails. *)
Theorem UrlsById_returns_at_most_one_record_per_id
        (db : persistence.DB) (ids : list string) :
  persistence.urls_unique db ->
  (List.length (persistence.returned (persistence.UrlsById db ids))
   <= List.length ids)%nat.
Proof.
  intros [N _]. unfold persistence.UrlsById.
  destruct (persistence.max_variables <? Z.of_nat (List.length ids));
    simpl; [lia|].
  rewrite length_map.
  rewrite (Permutation_length (by_md5_perm _)).
  rewrite <- (length_map persistence.url_md5).
  apply NoDup_incl_length.
  - apply NoDup_map_filter. exact N.
  - intros i Hi. apply in_map_iff in Hi. destruct Hi as [r [<- Hr]].
    apply filter_In in Hr. apply mem_string_In. tauto.
Qed.

(** X7, at a concrete input: three requested identifiers, one stored
    record among them. *)
Lemma UrlsById_returns_at_most_one_record_per_id_witness :
  (List.length
     (persistence.returned
        (persistence.UrlsById Sample.two_pages
           [Sample.hash Sample.b_example; "00000000000000000000000000000000";
            Sample.hash Sample.b_example])) <= 3)%nat.
Proof.
  apply (UrlsById_returns_at_most_one_record_per_id Sample.two_pages
           [Sample.hash Sample.b_example; "00000000000000000000000000000000";
            Sample.hash Sample.b_example]).
  exact two_pages_unique.
Defined.


(** ** The table "urls_meta" *)
Section MetaFacts.
Import persistence meta.

Variable HashMd5String : string -> string.

Lemma InsertUrlMeta_for t row :
  meta_for (InsertUrlMeta HashMd5String t row) (HashMd5String (Url row))
  = [{| m_id := seq t + 1; m_url_md5 := HashMd5String (Url row);
        indexed_at := indexed_at_of row |}].
Proof.
  unfold meta_for, InsertUrlMeta. simpl. rewrite filter_app. simpl.
  rewrite String.eqb_refl.
  replace (filter _ (filter _ (rows t))) with (@nil urls_meta_row);
    [reflexivity|].
  symmetry. induction (rows t) as [|x l IH]; simpl; [reflexivity|].
  destruct (m_url_md5 x =? HashMd5String (Url row))%string eqn:E; simpl;
    [exact IH|]. rewrite E. exact IH.
Qed.

Lemma InsertUrlMeta_unique t row :
  meta_unique t -> meta_unique (InsertUrlMeta HashMd5String t row).
Proof.
  unfold meta_unique, InsertUrlMeta. simpl. intros N. rewrite map_app. simpl.
  apply NoDup_snoc; [apply NoDup_map_filter; exact N|].
  intros Hin. apply in_map_iff in Hin. destruct Hin as [x [Hx Hin]].
  apply filter_In in Hin. destruct Hin as [_ C].
  apply negb_true_iff, String.eqb_neq in C. congruence.
Qed.

Lemma InsertUrlMeta_other t row i :
  i <> HashMd5String (Url row) ->
  meta_for (InsertUrlMeta HashMd5String t row) i = meta_for t i.
Proof.
  intros Hne. unfold meta_for, InsertUrlMeta. simpl. rewrite filter_app. simpl.
  destruct (HashMd5String (Url row) =? i)%string eqn:E;
    [apply String.eqb_eq in E; congruence|].
  rewrite app_nil_r. clear E.
  induction (rows t) as [|x l IH]; simpl; [reflexivity|].
  destruct (m_url_md5 x =? HashMd5String (Url row))%string eqn:E; simpl.
  - apply String.eqb_eq in E.
    destruct (m_url_md5 x =? i)%string eqn:E'; [|exact IH].
    apply String.eqb_eq in E'. congruence.
  - destruct (m_url_md5 x =? i)%string; [f_equal|]; exact IH.
Qed.

(** Under the UNIQUE constraint the join has one row per URL row. *)
Lemma left_join_one_per_url us t :
  meta_unique t -> map fst (left_join us t) = us.
Proof.
  intros N. induction us as [|u us IH]; simpl; [reflexivity|].
  rewrite map_app, IH. f_equal.
  assert (Hle : (List.length (meta_for t (url_md5 u)) <= 1)%nat).
  { unfold meta_for. clear IH. unfold meta_unique in N.
    induction (rows t) as [|x l IHl]; simpl; [lia|].
    inversion N as [|? ? Hx N']; subst.
    destruct (m_url_md5 x =? url_md5 u)%string eqn:E; [|apply IHl, N'].
    apply String.eqb_eq in E. simpl.
    destruct (filter _ l) as [|y l'] eqn:F; [simpl; lia|].
    exfalso. apply Hx.
    assert (Hy : In y (filter (fun m => (m_url_md5 m =? url_md5 u)%string) l))
      by (rewrite F; left; reflexivity).
    apply filter_In in Hy. destruct Hy as [Hy Hu]. apply String.eqb_eq in Hu.
    rewrite E, <- Hu. apply in_map. exact Hy. }
  destruct (meta_for t (url_md5 u)) as [|m [|m' l]]; simpl in *;
    [reflexivity | reflexivity | lia].
Qed.

End MetaFacts.

(** X9.  [InsertUrlMeta] keeps one meta row per URL: after the call the
    digest of the URL has exactly one row, under a fresh id one above the
    counter, with the Unix second of [IndexedAt], or 0 when it is absent;
    the rows of the other digests are untouched and the UNIQUE constraint
    is kept.  Writing the same row again gives the same content under a
    new id. *)
Theorem InsertUrlMeta_keeps_one_row_per_url
        (HashMd5String : string -> string)
        (t : meta.Table) (row : meta.UrlMetaRow) :
  let md5 := HashMd5String (meta.Url row) in
  let t' := meta.InsertUrlMeta HashMd5String t row in
  meta.meta_for t' md5
  = [{| meta.m_id := meta.seq t + 1; meta.m_url_md5 := md5;
        meta.indexed_at := meta.indexed_at_of row |}]
  /\ meta.meta_for (meta.InsertUrlMeta HashMd5String t' row) md5
     = [{| meta.m_id := meta.seq t + 2; meta.m_url_md5 := md5;
           meta.indexed_at := meta.indexed_at_of row |}]
  /\ (forall i, i <> md5 -> meta.meta_for t' i = meta.meta_for t i)
  /\ (meta.meta_unique t -> meta.meta_unique t').
Proof.
  intros md5 t'. split; [apply InsertUrlMeta_for|]. split.
  - unfold md5. rewrite InsertUrlMeta_for. unfold t'. simpl.
    replace (meta.seq t + 1 + 1) with (meta.seq t + 2) by lia. reflexivity.
  - split; [intros i Hi; apply InsertUrlMeta_other; exact Hi|].
    apply InsertUrlMeta_unique.
Qed.

(** X10.  Under the UNIQUE constraint of "urls_meta" the join of
    [CountUrlsWhere] holds every URL row once: the count lies between 0
    and the number of URLs and a clause that is always true counts them
    all.  A clause, its negation and the rows on which the clause is NULL
    split the URLs three ways; a clause and its negation alone count them
    all only when the clause is NULL on no row. *)
Theorem CountUrlsWhere_counts_each_url_once
        (db : persistence.DB) (t : meta.Table)
        (where_ : persistence.urls_row -> option meta.urls_meta_row
                  -> meta.truth) :
  meta.meta_unique t ->
  let n := Z.of_nat (List.length (persistence.urls db)) in
  let count := meta.CountUrlsWhere db t in
  0 <= count where_ <= n
  /\ count (fun _ _ => Some true) = n
  /\ count where_
     + count (fun u m => meta.sql_not (where_ u m))
     + count (fun u m => meta.is_null (where_ u m)) = n
  /\ ((forall u m, where_ u m <> None) ->
      count where_ + count (fun u m => meta.sql_not (where_ u m)) = n).
Proof.
  intros N n count.
  assert (Hlen : List.length (meta.left_join (persistence.urls db) t)
                 = List.length (persistence.urls db)).
  { rewrite <- (length_map fst). rewrite left_join_one_per_url by exact N.
    reflexivity. }
  assert (H3 : forall l : list (persistence.urls_row * option meta.urls_meta_row),
             (List.length (filter (fun um => meta.holds (where_ (fst um) (snd um))) l)
              + List.length (filter (fun um => meta.holds
                                         (meta.sql_not (where_ (fst um) (snd um)))) l)
              + List.length (filter (fun um => meta.holds
                                         (meta.is_null (where_ (fst um) (snd um)))) l)
              = List.length l)%nat).
  { induction l as [|um l IH]; simpl; [reflexivity|].
    destruct (where_ (fst um) (snd um)) as [[|]|]; simpl; lia. }
  assert (H0 : (forall u m, where_ u m <> None) ->
               forall l : list (persistence.urls_row * option meta.urls_meta_row),
                 List.length (filter (fun um => meta.holds
                                        (meta.is_null (where_ (fst um) (snd um)))) l)
                 = 0%nat).
  { intros Hnn. induction l as [|um l IH]; simpl; [reflexivity|].
    destruct (where_ (fst um) (snd um)) as [b|] eqn:E; simpl; [exact IH|].
    exfalso. exact (Hnn _ _ E). }
  specialize (H3 (meta.left_join (persistence.urls db) t)).
  unfold count, meta.CountUrlsWhere, n.
  set (yes := List.length (filter (fun um => meta.holds (where_ (fst um) (snd um)))
                                  (meta.left_join (persistence.urls db) t))) in *.
  set (no := List.length (filter (fun um => meta.holds
                                    (meta.sql_not (where_ (fst um) (snd um))))
                                 (meta.left_join (persistence.urls db) t))) in *.
  set (null := List.length (filter (fun um => meta.holds
                                      (meta.is_null (where_ (fst um) (snd um))))
                                   (meta.left_join (persistence.urls db) t))) in *.
  split; [lia|]. split; [|split; [lia|]].
  - f_equal. rewrite <- Hlen. clear.
    induction (meta.left_join (persistence.urls db) t) as [|um l IH];
      [reflexivity|].
    cbn. cbn in IH. rewrite IH. reflexivity.
  - intros Hnn. specialize (H0 Hnn (meta.left_join (persistence.urls db) t)).
    fold null in H0. lia.
Qed.

(** X10, at a concrete input: of the two pages one is indexed.  The
    clause indexed_at > 0 counts it, the negation counts none, and the
    page without a meta row, on which the clause is NULL, makes up the
    two. *)
Lemma CountUrlsWhere_counts_each_url_once_witness :
  meta.CountUrlsWhere Sample.two_pages Fixture.b_indexed
                      Fixture.indexed_after_0 = 1
  /\ meta.CountUrlsWhere Sample.two_pages Fixture.b_indexed
       (fun u m => meta.sql_not (Fixture.indexed_after_0 u m)) = 0
  /\ meta.CountUrlsWhere Sample.two_pages Fixture.b_indexed
                         Fixture.indexed_after_0
     + meta.CountUrlsWhere Sample.two_pages Fixture.b_indexed
         (fun u m => meta.sql_not (Fixture.indexed_after_0 u m))
     + meta.CountUrlsWhere Sample.two_pages Fixture.b_indexed
         (fun u m => meta.is_null (Fixture.indexed_after_0 u m)) = 2.
Proof.
  split; [reflexivity|]. split; [reflexivity|].
  apply (CountUrlsWhere_counts_each_url_once Sample.two_pages Fixture.b_indexed
           Fixture.indexed_after_0).
  apply InsertUrlMeta_unique. constructor.
Defined.

(** * The Chromium extractor *)
Section ChromiumFacts.
Import chromium.

Lemma scan_urls_ok rows acc l :
  scan_urls rows acc = Ok l ->
  exists l', l = (acc ++ l')%list
    /\ map (fun r => Some (types.UrlRow.Url r)) l' = map u_url rows
    /\ map types.UrlRow.Title l' = map u_title rows
    /\ (forall r, In r l' -> types.UrlRow.LastVisit r = None
                             /\ types.UrlRow.Description r = None).
Proof.
  revert acc l. induction rows as [|x rows IH]; simpl; intros acc l.
  - intros [= <-]. exists []. rewrite app_nil_r. simpl. tauto.
  - destruct (u_url x) as [u|] eqn:E; [|discriminate].
    intros H. destruct (IH _ _ H) as [l' [-> [Hu [Ht Hn]]]].
    eexists (_ :: l'). rewrite <- app_assoc. split; [reflexivity|].
    simpl. rewrite Hu, Ht. repeat split; try reflexivity;
      destruct H0 as [<- | H0]; try reflexivity; apply Hn; exact H0.
Qed.

Lemma scan_urls_err rows acc :
  is_err (scan_urls rows acc) = true <-> exists r, In r rows /\ u_url r = None.
Proof.
  revert acc. induction rows as [|x rows IH]; simpl; intros acc.
  - split; [discriminate | intros [r [[] _]]].
  - destruct (u_url x) as [u|] eqn:E.
    + rewrite IH. split; intros [r [Hr Hn]].
      * exists r. auto.
      * destruct Hr as [<- | Hr]; [congruence | exists r; auto].
    + split; [intros _; exists x; auto | reflexivity].
Qed.

Section WithDatetime.

Variable visit_date : Z -> option string.
Variable ParseSQLiteDatetime : string -> result time.Time.

Lemma scan_visits_ok rows acc l :
  scan_visits ParseSQLiteDatetime rows acc = Ok l ->
  exists l', l = (acc ++ l')%list
    /\ map (fun v => Some (types.VisitRow.Url v)) l' = map snd rows
    /\ (forall v, In v l' -> types.VisitRow.ExtractorName v = "").
Proof.
  revert acc l. induction rows as [|[ts url] rows IH]; simpl; intros acc l.
  - intros [= <-]. exists []. rewrite app_nil_r. simpl. tauto.
  - destruct ts as [ts|]; [|discriminate].
    destruct url as [url|]; [|discriminate].
    destruct (ParseSQLiteDatetime ts) as [t|e]; [|discriminate].
    intros H. destruct (IH _ _ H) as [l' [-> [Hu Hn]]].
    eexists (_ :: l'). rewrite <- app_assoc. split; [reflexivity|].
    simpl. rewrite Hu. split; [reflexivity|].
    intros v [<- | Hv]; [reflexivity | apply Hn; exact Hv].
Qed.

Lemma scan_visits_err rows acc :
  is_err (scan_visits ParseSQLiteDatetime rows acc)
  = negb (forallb (readable ParseSQLiteDatetime) rows).
Proof.
  revert acc. induction rows as [|[ts url] rows IH]; simpl; intros acc;
    [reflexivity|].
  destruct ts as [ts|]; [|reflexivity].
  destruct url as [url|]; [|reflexivity].
  destruct (ParseSQLiteDatetime ts) as [t|e]; simpl; [apply IH | reflexivity].
Qed.

Lemma joined_url h row :
  In row (joined visit_date h) ->
  exists v u, In v (h_visits h) /\ In u (h_urls h)
              /\ u_id u = sv_url v /\ snd row = u_url u.
Proof.
  unfold joined. intros Hin. apply in_flat_map in Hin.
  destruct Hin as [v [Hv Hin]]. apply in_map_iff in Hin.
  destruct Hin as [u [<- Hu]]. apply filter_In in Hu. destruct Hu as [Hu E].
  apply Z.eqb_eq in E. exists v, u. auto.
Qed.

End WithDatetime.

End ChromiumFacts.

(** X11.  [GetAllUrls] returns all rows or none: it fails when the query
    fails, with that error, and when some row has a NULL url; otherwise it
    returns one row per row of the table, in order, with its url and its
    title (NULL titles absent), and every returned row has no description
    and no last visit. *)
Theorem GetAllUrls_returns_all_rows_or_none (h : chromium.History) :
  (forall e, chromium.GetAllUrls (Err e) = Err e)
  /\ (is_err (chromium.GetAllUrls (Ok h)) = true
      <-> exists r, In r (chromium.h_urls h) /\ chromium.u_url r = None)
  /\ (forall rows, chromium.GetAllUrls (Ok h) = Ok rows ->
        map (fun r => Some (types.UrlRow.Url r)) rows
        = map chromium.u_url (chromium.h_urls h)
        /\ map types.UrlRow.Title rows
           = map chromium.u_title (chromium.h_urls h)
        /\ (forall r, In r rows -> types.UrlRow.LastVisit r = None
                                   /\ types.UrlRow.Description r = None)).
Proof.
  split; [reflexivity|]. split; [apply scan_urls_err|].
  intros rows H. apply scan_urls_ok in H. destruct H as [l' [-> H]].
  exact H.
Qed.

(** X12.  What a Chromium URL row does to the store: a row returned by
    [GetAllUrls] carries no last visit and no description, so handing it
    to [InsertUrl] leaves the URL stored with [last_visit] 0 and a NULL
    description, whatever the store held for that URL. *)
Theorem chromium_url_row_resets_last_visit
        (HashMd5String : string -> string)
        (conn : result chromium.History) (rows : list types.UrlRow.t)
        (row : types.UrlRow.t) (db : persistence.DB) :
  chromium.GetAllUrls conn = Ok rows ->
  In row rows ->
  persistence.urls_for (persistence.InsertUrl HashMd5String db row)
                       (types.UrlRow.Url row)
  = [{| persistence.url_md5 := HashMd5String (types.UrlRow.Url row);
        persistence.url := types.UrlRow.Url row;
        persistence.title := types.UrlRow.Title row;
        persistence.description := None;
        persistence.last_visit := 0 |}].
Proof.
  intros Hget Hin. destruct conn as [h|e]; [|discriminate].
  apply scan_urls_ok in Hget. destruct Hget as [l' [-> [_ [_ Hn]]]].
  destruct (Hn row Hin) as [Hlv Hd].
  unfold persistence.urls_for, persistence.InsertUrl. simpl.
  rewrite (insert_or_replace_by_url
             {| persistence.url_md5 := HashMd5String (types.UrlRow.Url row);
                persistence.url := types.UrlRow.Url row;
                persistence.title := types.UrlRow.Title row;
                persistence.description := types.UrlRow.Description row;
                persistence.last_visit := persistence.lastVisit_of row |}).
  unfold persistence.lastVisit_of. rewrite Hlv, Hd. reflexivity.
Qed.

(** X12, at a concrete input: b.example is stored with last visit 200;
    the Chromium row of b.example, written to the store, leaves it at 0. *)
Lemma chromium_url_row_resets_last_visit_witness :
  exists rows row,
    chromium.GetAllUrls (Ok Fixture.history) = Ok rows
    /\ In row rows
    /\ map persistence.last_visit
         (persistence.urls_for Sample.two_pages Sample.b_example) = [200]
    /\ map persistence.last_visit
         (persistence.urls_for
            (persistence.InsertUrl Sample.hash Sample.two_pages row)
            Sample.b_example) = [0].
Proof.
  eexists. exists (Sample.page Sample.b_example None None).
  split; [reflexivity|].
  assert (Hin : In (Sample.page Sample.b_example None None)
                   [Sample.page Sample.a_example (Some "A") None;
                    Sample.page Sample.b_example None None])
    by (right; left; reflexivity).
  split; [exact Hin|]. split; [reflexivity|].
  change Sample.b_example
    with (types.UrlRow.Url (Sample.page Sample.b_example None None)) at 2.
  rewrite (chromium_url_row_resets_last_visit Sample.hash
             (Ok Fixture.history) _ _ Sample.two_pages eq_refl Hin).
  reflexivity.
Defined.



(** * Discovery, when it succeeds *)
Section DiscoveryShape.
Import extractors.

Variable Stat : string -> result FileInfo.

(** The extractors a location contributes. *)
Let found_at (x : pathSpec) : list Extractor :=
  if valid_dir Stat (path x)
  then match findDBs x (path x) with
       | Ok dbs => map (createExtractor x (name x)) dbs
       | Err _ => []
       end
  else [].

Lemma discover_ok specs found out l :
  fst (discover Stat specs found out) = Ok l ->
  l = (found ++ flat_map found_at specs)%list.
Proof.
  revert found out. induction specs as [|x rest IH]; simpl; intros found out.
  - intros [= <-]. rewrite app_nil_r. reflexivity.
  - unfold found_at at 1. destruct (valid_dir Stat (path x)); simpl.
    + destruct (findDBs x (path x)) as [dbs|e]; [|discriminate].
      intros H. rewrite (IH _ _ H), <- app_assoc. reflexivity.
    + apply IH.
Qed.

End DiscoveryShape.

(** X14.  When [BuildExtractorList] succeeds, its list holds, location by
    location in the order chrome, vivaldi, firefox, safari, one extractor
    per database file that the search of a usable location returned, in
    the order of the search; each extractor bears the name of its location
    and the path of its file, so the profiles of one browser share a
    name. *)
Theorem BuildExtractorList_lists_one_extractor_per_database
        (Expanduser : string -> string)
        (Stat : string -> result extractors.FileInfo)
        (WalkDir : string -> list (string * extractors.DirEntry))
        (FindFirefoxDBs : string -> result (list string))
        (l : list extractors.Extractor) :
  fst (extractors.BuildExtractorList Expanduser Stat WalkDir FindFirefoxDBs)
  = Ok l ->
  l = flat_map
        (fun x =>
           if extractors.valid_dir Stat (extractors.path x)
           then match extractors.findDBs x (extractors.path x) with
                | Ok dbs => map (extractors.createExtractor x (extractors.name x)) dbs
                | Err _ => []
                end
           else [])
        (extractors.pathsToTry Expanduser Stat WalkDir FindFirefoxDBs)
  /\ (forall e, In e l ->
        exists x dbs,
          In x (extractors.pathsToTry Expanduser Stat WalkDir FindFirefoxDBs)
          /\ extractors.valid_dir Stat (extractors.path x) = true
          /\ extractors.findDBs x (extractors.path x) = Ok dbs
          /\ In (extractors.GetDBPath e) dbs
          /\ extractors.GetName e = extractors.name x
          /\ In (extractors.GetName e) ["chrome"; "vivaldi"; "firefox"; "safari"]).
Proof.
  intros H. apply discover_ok in H. rewrite app_nil_l in H. split; [exact H|].
  intros e He. rewrite H in He. apply in_flat_map in He.
  destruct He as [x [Hx He]].
  destruct (extractors.valid_dir Stat (extractors.path x)) eqn:V; [|destruct He].
  destruct (extractors.findDBs x (extractors.path x)) as [dbs|err] eqn:F;
    [|destruct He].
  apply in_map_iff in He. destruct He as [p [<- Hp]].
  exists x, dbs. split; [exact Hx|]. split; [exact V|]. split; [exact F|].
  clear V F H. simpl in Hx.
  destruct Hx as [<- | [<- | [<- | [<- | []]]]]; simpl;
    (split; [exact Hp|]; split; [reflexivity|]; tauto).
Qed.

(** X14, at a concrete input: two Chrome profiles give two extractors,
    both called chrome; the directory called History gives none. *)
Lemma BuildExtractorList_lists_one_extractor_per_database_witness :
  fst (extractors.BuildExtractorList Sample.expanduser Fixture.chrome_dir_only
         Fixture.chrome_walk Sample.no_firefox_dbs)
  = Ok [extractors.ChromiumExtractor "chrome"
          "/Users/u/Library/Application Support/Google/Chrome/Default/History";
        extractors.ChromiumExtractor "chrome"
          "/Users/u/Library/Application Support/Google/Chrome/Profile 1/History"].
Proof.
  destruct (fst (extractors.BuildExtractorList Sample.expanduser
                   Fixture.chrome_dir_only Fixture.chrome_walk
                   Sample.no_firefox_dbs)) as [l|e] eqn:E; [|discriminate].
  destruct (BuildExtractorList_lists_one_extractor_per_database _ _ _ _ l E)
    as [-> _].
  reflexivity.
Defined.

(** X15.  The Safari location contributes at most one extractor: when its
    directory is usable and [os.Stat] finds History.db in it, the search
    returns that one path, the directory's path with History.db appended,
    and discovery ends with a safari extractor on it. *)
Theorem safari_location_gives_one_extractor
        (Expanduser : string -> string)
        (Stat : string -> result extractors.FileInfo)
        (WalkDir : string -> list (string * extractors.DirEntry))
        (FindFirefoxDBs : string -> result (list string))
        (info : extractors.FileInfo) (l : list extractors.Extractor) :
  let dir := Expanduser "~/Library/Safari/" in
  extractors.valid_dir Stat dir = true ->
  Stat (dir ++ "History.db") = Ok info ->
  fst (extractors.BuildExtractorList Expanduser Stat WalkDir FindFirefoxDBs)
  = Ok l ->
  extractors.findSafariDBs Stat dir = Ok [dir ++ "History.db"]
  /\ exists before,
       l = (before ++ [extractors.SafariExtractor "safari" (dir ++ "History.db")])%list
       /\ (forall e, In e before -> extractors.GetName e <> "safari").
Proof.
  intros dir V S H.
  assert (Hf : extractors.findSafariDBs Stat dir = Ok [dir ++ "History.db"])
    by (unfold extractors.findSafariDBs; rewrite S; reflexivity).
  split; [exact Hf|].
  apply discover_ok in H. simpl in H. fold dir in H. rewrite V, Hf in H.
  rewrite !app_nil_r in H. simpl in H.
  eexists. split.
  - rewrite H. rewrite !app_assoc. reflexivity.
  - intros e He. rewrite !in_app_iff in He.
    destruct He as [[He | He] | He];
      [ destruct (extractors.valid_dir Stat _) in He
      | destruct (extractors.valid_dir Stat _) in He
      | destruct (extractors.valid_dir Stat _) in He;
        [destruct (FindFirefoxDBs _) in He|] ];
      try (destruct He; fail);
      apply in_map_iff in He; destruct He as [p [<- _]]; discriminate.
Qed.

(** X15, at a concrete input: a machine with Safari and its database. *)
Lemma safari_location_gives_one_extractor_witness :
  extractors.findSafariDBs Fixture.safari_complete "/Users/u/Library/Safari/"
  = Ok ["/Users/u/Library/Safari/History.db"]
  /\ fst (extractors.BuildExtractorList Sample.expanduser
            Fixture.safari_complete Sample.empty_walk Sample.no_firefox_dbs)
     = Ok [extractors.SafariExtractor "safari"
             "/Users/u/Library/Safari/History.db"].
Proof.
  destruct (safari_location_gives_one_extractor Sample.expanduser
              Fixture.safari_complete Sample.empty_walk Sample.no_firefox_dbs
              {| extractors.IsDir := false |}
              [extractors.SafariExtractor "safari"
                 "/Users/u/Library/Safari/History.db"]
              eq_refl eq_refl eq_refl) as [Hf _].
  split; [exact Hf | reflexivity].
Defined.

(** * More on the sync driver *)
Section DriverShape.
Import persistence extractors cmd.

Variable PopulateAll : Extractor -> DB -> DB * option error.
Variable PopulateSinceTime : Extractor -> time.Time -> DB -> DB * option error.

Lemma populateLoop_all_skipped browserName onlyLatest xs db errs out :
  (forall x, In x xs -> skipped browserName x = true) ->
  populateLoop PopulateAll PopulateSinceTime browserName onlyLatest xs db errs out
  = Completed db errs out.
Proof.
  revert db errs out. induction xs as [|x xs IH]; intros db errs out Hall;
    simpl; [reflexivity|].
  rewrite (Hall x (or_introl eq_refl)). apply IH.
  intros y Hy. apply Hall. right. exact Hy.
Qed.

Lemma populateLoop_filter browserName onlyLatest xs db errs out :
  browserName <> "" ->
  populateLoop PopulateAll PopulateSinceTime browserName onlyLatest xs db errs out
  = populateLoop PopulateAll PopulateSinceTime "" onlyLatest
      (filter (fun x => (GetName x =? browserName)%string) xs) db errs out.
Proof.
  intros Hne. apply String.eqb_neq in Hne.
  revert db errs out. induction xs as [|x xs IH]; intros db errs out; simpl;
    [reflexivity|].
  unfold skipped at 1. rewrite Hne. simpl.
  destruct (GetName x =? browserName)%string; simpl; [|apply IH].
  destruct (if onlyLatest then GetLatestTime db (GetName x)
            else Ok (time.time_Unix 0 0)) as [since|e]; [|reflexivity].
  destruct (if onlyLatest then PopulateSinceTime x since db
            else PopulateAll x db) as [db' [e|]]; apply IH.
Qed.

Lemma populateLoop_full_any_since (other : Extractor -> time.Time -> DB
                                           -> DB * option error)
      browserName xs db errs out :
  populateLoop PopulateAll PopulateSinceTime browserName false xs db errs out
  = populateLoop PopulateAll other browserName false xs db errs out.
Proof.
  revert db errs out. induction xs as [|x xs IH]; intros db errs out; simpl;
    [reflexivity|].
  destruct (skipped browserName x); [apply IH|].
  destruct (PopulateAll x db) as [db' [e|]]; apply IH.
Qed.

Lemma populateLoop_latest_any_all (other : Extractor -> DB -> DB * option error)
      browserName xs db errs out :
  populateLoop PopulateAll PopulateSinceTime browserName true xs db errs out
  = populateLoop other PopulateSinceTime browserName true xs db errs out.
Proof.
  revert db errs out. induction xs as [|x xs IH]; intros db errs out; simpl;
    [reflexivity|].
  destruct (skipped browserName x); [apply IH|].
  destruct (GetLatestTime db (GetName x)) as [since|e]; [|reflexivity].
  destruct (PopulateSinceTime x since db) as [db' [e|]]; apply IH.
Qed.

End DriverShape.

(** X16.  A --browser name that no discovered extractor bears makes the
    run import nothing and report nothing: the loop ends with the store
    untouched and no error, no cursor is looked up, and the process ends
    as a run without sources does, with status 0 unless the index build
    is enabled and fails. *)
Theorem unknown_browser_name_imports_nothing
        (PopulateAll : extractors.Extractor -> persistence.DB
                       -> persistence.DB * option error)
        (PopulateSinceTime : extractors.Extractor -> time.Time -> persistence.DB
                             -> persistence.DB * option error)
        (BuildIndex : persistence.DB -> persistence.DB * result Z)
        (browserName : string) (onlyLatest shouldBuildIndex : bool)
        (xs : list extractors.Extractor) (db : persistence.DB) :
  browserName <> "" ->
  (forall x, In x xs -> extractors.GetName x <> browserName) ->
  cmd.populateLoop PopulateAll PopulateSinceTime browserName onlyLatest
                   xs db [] []
  = cmd.Completed db [] []
  /\ cmd.Run PopulateAll PopulateSinceTime BuildIndex browserName onlyLatest
             shouldBuildIndex (Ok xs) (Ok db)
     = cmd.Run PopulateAll PopulateSinceTime BuildIndex browserName onlyLatest
               shouldBuildIndex (Ok []) (Ok db)
  /\ (shouldBuildIndex = false ->
      cmd.Run PopulateAll PopulateSinceTime BuildIndex browserName onlyLatest
              shouldBuildIndex (Ok xs) (Ok db)
      = {| cmd.status := 0; cmd.store := Some db; cmd.output := [] |}).
Proof.
  intros Hb Hnone.
  assert (Hloop : cmd.populateLoop PopulateAll PopulateSinceTime browserName
                    onlyLatest xs db [] [] = cmd.Completed db [] []).
  { apply populateLoop_all_skipped. intros x Hx. unfold cmd.skipped.
    apply String.eqb_neq in Hb. rewrite Hb.
    specialize (Hnone x Hx). apply String.eqb_neq in Hnone. rewrite Hnone.
    reflexivity. }
  split; [exact Hloop|]. split.
  - unfold cmd.Run. rewrite Hloop. reflexivity.
  - intros ->. unfold cmd.Run. rewrite Hloop. reflexivity.
Qed.

(** X16, at a concrete input: --browser firefox on a machine with chrome
    and safari, in incremental mode on a fresh store, ends with status 0
    and an empty store. *)
Lemma unknown_browser_name_imports_nothing_witness :
  cmd.Run Sample.import_all Sample.import_since Sample.index_ok "firefox"
          true false (Ok [Sample.chrome; Sample.safari])
          (Ok persistence.empty_db)
  = {| cmd.status := 0; cmd.store := Some persistence.empty_db;
       cmd.output := [] |}.
Proof.
  apply (unknown_browser_name_imports_nothing Sample.import_all
           Sample.import_since Sample.index_ok "firefox" true false
           [Sample.chrome; Sample.safari] persistence.empty_db).
  - discriminate.
  - intros x [<- | [<- | []]]; discriminate.
  - reflexivity.
Defined.

(** X17.  A run with --browser set to a name is the run without the flag
    over the extractors that bear the name, in their order. *)
Theorem browser_flag_restricts_the_list
        (PopulateAll : extractors.Extractor -> persistence.DB
                       -> persistence.DB * option error)
        (PopulateSinceTime : extractors.Extractor -> time.Time -> persistence.DB
                             -> persistence.DB * option error)
        (BuildIndex : persistence.DB -> persistence.DB * result Z)
        (browserName : string) (onlyLatest shouldBuildIndex : bool)
        (xs : list extractors.Extractor) (dbConn : result persistence.DB) :
  browserName <> "" ->
  cmd.Run PopulateAll PopulateSinceTime BuildIndex browserName onlyLatest
          shouldBuildIndex (Ok xs) dbConn
  = cmd.Run PopulateAll PopulateSinceTime BuildIndex "" onlyLatest
            shouldBuildIndex
            (Ok (filter (fun x => (extractors.GetName x =? browserName)%string) xs))
            dbConn.
Proof.
  intros Hb. unfold cmd.Run. destruct dbConn as [db|e]; [|reflexivity].
  rewrite (populateLoop_filter PopulateAll PopulateSinceTime browserName
             onlyLatest xs db [] [] Hb).
  reflexivity.
Qed.

(** X17, at a concrete input: --browser safari over chrome and safari is
    the plain run over safari. *)
Lemma browser_flag_restricts_the_list_witness :
  cmd.Run Sample.import_all Sample.import_since Sample.index_ok "safari"
          false true (Ok [Sample.chrome; Sample.safari])
          (Ok persistence.empty_db)
  = cmd.Run Sample.import_all Sample.import_since Sample.index_ok ""
            false true (Ok [Sample.safari]) (Ok persistence.empty_db).
Proof.
  apply (browser_flag_restricts_the_list Sample.import_all Sample.import_since
           Sample.index_ok "safari" false true
           [Sample.chrome; Sample.safari] (Ok persistence.empty_db)).
  discriminate.
Defined.

(** X18.  The two modes do not mix: a full run never looks up a cursor
    and never calls [PopulateSinceTime], so it ends the same whatever that
    function is; an incremental run never calls [PopulateAll]. *)
Theorem run_modes_do_not_mix
        (PopulateAll PopulateAll' : extractors.Extractor -> persistence.DB
                                    -> persistence.DB * option error)
        (PopulateSinceTime PopulateSinceTime' :
           extractors.Extractor -> time.Time -> persistence.DB
           -> persistence.DB * option error)
        (BuildIndex : persistence.DB -> persistence.DB * result Z)
        (browserName : string) (shouldBuildIndex : bool)
        (found : result (list extractors.Extractor))
        (dbConn : result persistence.DB) :
  cmd.Run PopulateAll PopulateSinceTime BuildIndex browserName false
          shouldBuildIndex found dbConn
  = cmd.Run PopulateAll PopulateSinceTime' BuildIndex browserName false
            shouldBuildIndex found dbConn
  /\ cmd.Run PopulateAll PopulateSinceTime BuildIndex browserName true
             shouldBuildIndex found dbConn
     = cmd.Run PopulateAll' PopulateSinceTime BuildIndex browserName true
               shouldBuildIndex found dbConn.
Proof.
  unfold cmd.Run. destruct found as [xs|e]; [|split; reflexivity].
  destruct dbConn as [db|e]; [|split; reflexivity].
  split.
  - rewrite (populateLoop_full_any_since PopulateAll PopulateSinceTime
               PopulateSinceTime'). reflexivity.
  - rewrite (populateLoop_latest_any_all PopulateAll PopulateSinceTime
               PopulateAll'). reflexivity.
Qed.

(** X19.  The index is built only after a run without failures: once the
    loop has ended with a collected error, the process logs the errors
    and the aggregate line and exits with status 1, leaving the store as
    the imports left it, whatever [BuildIndex] is and whether or not
    --build-index is set. *)
Theorem failed_source_skips_the_index_build
        (PopulateAll : extractors.Extractor -> persistence.DB
                       -> persistence.DB * option error)
        (PopulateSinceTime : extractors.Extractor -> time.Time -> persistence.DB
                             -> persistence.DB * option error)
        (BuildIndex : persistence.DB -> persistence.DB * result Z)
        (browserName : string) (onlyLatest shouldBuildIndex : bool)
        (xs : list extractors.Extractor) (db db' : persistence.DB)
        (e : error) (errs : list error) (out : list Output) :
  cmd.populateLoop PopulateAll PopulateSinceTime browserName onlyLatest
                   xs db [] []
  = cmd.Completed db' (e :: errs) out ->
  cmd.Run PopulateAll PopulateSinceTime BuildIndex browserName onlyLatest
          shouldBuildIndex (Ok xs) (Ok db)
  = {| cmd.status := 1; cmd.store := Some db';
       cmd.output :=
         (out ++ map Log (e :: errs)
          ++ [Print "Encountered an error one or more browsers failed"])%list |}.
Proof.
  intros Hloop. unfold cmd.Run. rewrite Hloop.
  change (List.length (e :: errs)) with (S (List.length errs)).
  rewrite Nat2Z.inj_succ.
  replace (0 <? Z.succ (Z.of_nat (List.length errs))) with true
    by (symmetry; apply Z.ltb_lt; lia).
  cbv iota beta. rewrite <- app_assoc. reflexivity.
Qed.

(** X19, at a concrete input: chrome is unreadable, and the index that
    would fail is never built: the output ends with the aggregate line. *)
Lemma failed_source_skips_the_index_build_witness :
  cmd.output
    (cmd.Run Sample.import_all Sample.import_since Sample.index_broken ""
             false true (Ok [Sample.chrome; Sample.safari])
             (Ok persistence.empty_db))
  = [Log "chrome error:: unable to open database file";
     Print "Encountered an error one or more browsers failed"].
Proof.
  rewrite (failed_source_skips_the_index_build Sample.import_all
             Sample.import_since Sample.index_broken "" false true
             [Sample.chrome; Sample.safari] persistence.empty_db
             (fst (Sample.import_all Sample.safari persistence.empty_db))
             (Wrap Sample.unreadable "chrome error:") [] [] eq_refl).
  reflexivity.
Defined.

(** * The date of a Chromium visit *)

(** C9, at 13300000000999999, a microsecond before 2022-06-18 04:26:41:
    the text of visit_date shows second 1655526401 although the visit lies
    in second 1655526400; likewise the visit 999999 microseconds after
    the epoch of 1601 is dated one second after it.  Away from the end of
    a second the two agree. *)
Theorem chromium_visit_date_can_be_a_second_late :
  chromium.visit_date_unix 13300000000999999 = Some 1655526401
  /\ chromium.second_of 13300000000999999 = 1655526400
  /\ chromium.visit_date_unix 999999 = Some (chromium.epoch_1601 + 1)
  /\ chromium.second_of 999999 = chromium.epoch_1601
  /\ chromium.visit_date_unix 13300000000500000
     = Some (chromium.second_of 13300000000500000)
  /\ chromium.visit_date_unix 0 = Some (chromium.second_of 0).
Proof. vm_compute. repeat split. Qed.
